(** * West Coast Celebrants: the page's state, navigation and contact form

    A shallow embedding of [src/Website.tsx]: the theme hook, the
    reduced-motion hook, [goTo], the mobile menu, the service-card anchors and
    the contact form's submit handler, over an explicit model of the parts of
    the browser they touch (strings as UTF-16 code units, [FormData],
    [localStorage], the document's elements, [window.location]) and of React's
    render / effect cycle. *)

From Stdlib Require Import NArith Ascii String.
From stdpp Require Import gmap list.

Local Open Scope N_scope.

(** ** JavaScript strings

    A JavaScript string is a sequence of 16-bit code units.  String literals
    of the source are ASCII and are written [lit "..."]. *)

Module Js.

Abbreviation jsstring := (list N).

Definition lit (s : string) : jsstring :=
  map N_of_ascii (list_ascii_of_string s).

(** [s.startsWith(p)] *)
Fixpoint startsWith (p s : jsstring) : bool :=
  match p, s with
  | [], _ => true
  | _ :: _, [] => false
  | a :: p', b :: s' => (a =? b) && startsWith p' s'
  end.

(** [s.includes(p)] *)
Fixpoint includes (p s : jsstring) : bool :=
  startsWith p s ||
  match s with
  | [] => false
  | _ :: s' => includes p s'
  end.

(** [s.replace(p, r)] with a string pattern: the first occurrence only. *)
Fixpoint replace (p r s : jsstring) : jsstring :=
  if startsWith p s then r ++ drop (length p) s
  else match s with
       | [] => []
       | c :: s' => c :: replace p r s'
       end.

(** [s.replace(/^#/, "")] *)
Definition strip_hash (s : jsstring) : jsstring :=
  match s with
  | c :: s' => if c =? 35 then s' else s
  | [] => s
  end.

(** *** [encodeURIComponent] (ECMA-262, Encode with the unreserved set
    [A-Z a-z 0-9 - _ . ! ~ * ' ( )]).  [None] is the thrown [URIError]. *)

Definition in_range (lo hi c : N) : bool := (lo <=? c) && (c <=? hi).

Definition uriUnescaped (c : N) : bool :=
  in_range 65 90 c || in_range 97 122 c || in_range 48 57 c
  || bool_decide (c ∈ lit "-_.!~*'()").

Definition is_high_surrogate (c : N) : bool := in_range 0xD800 0xDBFF c.
Definition is_low_surrogate (c : N) : bool := in_range 0xDC00 0xDFFF c.

Definition code_point (hi lo : N) : N :=
  (hi - 0xD800) * 0x400 + (lo - 0xDC00) + 0x10000.

Definition utf8 (v : N) : list N :=
  if v <? 0x80 then [v]
  else if v <? 0x800 then
    [N.lor 0xC0 (N.shiftr v 6); N.lor 0x80 (N.land v 0x3F)]
  else if v <? 0x10000 then
    [N.lor 0xE0 (N.shiftr v 12);
     N.lor 0x80 (N.land (N.shiftr v 6) 0x3F);
     N.lor 0x80 (N.land v 0x3F)]
  else
    [N.lor 0xF0 (N.shiftr v 18);
     N.lor 0x80 (N.land (N.shiftr v 12) 0x3F);
     N.lor 0x80 (N.land (N.shiftr v 6) 0x3F);
     N.lor 0x80 (N.land v 0x3F)].

Definition hex_digit (n : N) : N := if n <? 10 then 48 + n else 55 + n.

Definition pct (octet : N) : jsstring :=
  [37; hex_digit (N.shiftr octet 4); hex_digit (N.land octet 0xF)].

Definition pct_utf8 (v : N) : jsstring := concat (map pct (utf8 v)).

Fixpoint encodeURIComponent (s : jsstring) : option jsstring :=
  match s with
  | [] => Some []
  | c :: rest =>
    if uriUnescaped c then cons c <$> encodeURIComponent rest
    else if is_low_surrogate c then None
    else if is_high_surrogate c then
      match rest with
      | d :: rest' =>
        if is_low_surrogate d
        then app (pct_utf8 (code_point c d)) <$> encodeURIComponent rest'
        else None
      | [] => None
      end
    else app (pct_utf8 c) <$> encodeURIComponent rest
  end.

(** Strings without lone surrogates (scalar value strings); [FormData]
    built from a form only ever holds such strings. *)
Fixpoint well_formed (s : jsstring) : bool :=
  match s with
  | [] => true
  | c :: rest =>
    if is_low_surrogate c then false
    else if is_high_surrogate c then
      match rest with
      | d :: rest' => is_low_surrogate d && well_formed rest'
      | [] => false
      end
    else well_formed rest
  end.

End Js.

Import Js.

(** ** Page state *)

Inductive Theme := light | dark.
Inductive Status := idle | sending | ok | error.

#[global] Instance Theme_eq_dec : EqDecision Theme.
Proof. solve_decision. Defined.
#[global] Instance Status_eq_dec : EqDecision Status.
Proof. solve_decision. Defined.

(** The four [useState] cells: [menuOpen] (line 185), [prefersReduced]
    (line 25), [theme] (line 37) and the form's [status] (line 97). *)
Record ReactState := {
  menuOpen : bool;
  prefersReduced : bool;
  theme : Theme;
  status : Status;
}.

#[global] Instance ReactState_eq_dec : EqDecision ReactState.
Proof. solve_decision. Defined.

Definition with_menuOpen (v : bool) (r : ReactState) : ReactState :=
  {| menuOpen := v; prefersReduced := prefersReduced r;
     theme := theme r; status := status r |}.
Definition with_prefersReduced (v : bool) (r : ReactState) : ReactState :=
  {| menuOpen := menuOpen r; prefersReduced := v;
     theme := theme r; status := status r |}.
Definition with_theme (v : Theme) (r : ReactState) : ReactState :=
  {| menuOpen := menuOpen r; prefersReduced := prefersReduced r;
     theme := v; status := status r |}.
Definition with_status (v : Status) (r : ReactState) : ReactState :=
  {| menuOpen := menuOpen r; prefersReduced := prefersReduced r;
     theme := theme r; status := v |}.

(** An element: its id and its [tabindex] attribute. *)
Record Element := {
  el_id : jsstring;
  el_tabindex : option jsstring;
}.

(** [FormDataEntryValue = File | string] *)
Inductive FormDataEntryValue :=
  | EString (s : jsstring)
  | EFile.

Abbreviation FormData := (list (jsstring * FormDataEntryValue)).

(** A form control: its name, and the entry it contributes to the form's
    entry list now and after a reset ([None]: it contributes none, as a
    [select] whose selected option is disabled). *)
Record Control := {
  c_name : jsstring;
  c_value : option FormDataEntryValue;
  c_default : option FormDataEntryValue;
}.

Record Document := {
  elements : list Element;
  activeElement : option nat;
  body_overflow : jsstring;          (* document.body.style.overflow *)
  root_scrollBehavior : jsstring;    (* documentElement.style.scrollBehavior *)
  form : list Control;
}.

Definition with_elements (v : list Element) (d : Document) : Document :=
  {| elements := v; activeElement := activeElement d;
     body_overflow := body_overflow d;
     root_scrollBehavior := root_scrollBehavior d; form := form d |}.
Definition with_activeElement (v : option nat) (d : Document) : Document :=
  {| elements := elements d; activeElement := v;
     body_overflow := body_overflow d;
     root_scrollBehavior := root_scrollBehavior d; form := form d |}.
Definition with_body_overflow (v : jsstring) (d : Document) : Document :=
  {| elements := elements d; activeElement := activeElement d;
     body_overflow := v;
     root_scrollBehavior := root_scrollBehavior d; form := form d |}.
Definition with_root_scrollBehavior (v : jsstring) (d : Document) : Document :=
  {| elements := elements d; activeElement := activeElement d;
     body_overflow := body_overflow d;
     root_scrollBehavior := v; form := form d |}.
Definition with_form (v : list Control) (d : Document) : Document :=
  {| elements := elements d; activeElement := activeElement d;
     body_overflow := body_overflow d;
     root_scrollBehavior := root_scrollBehavior d; form := v |}.

Record Window := {
  location_fragment : jsstring;        (* window.location.hash, without "#" *)
  localStorage : gmap jsstring jsstring;
  mql_matches : bool;                  (* (prefers-reduced-motion: reduce) *)
  mql_addEventListener : bool;         (* does the query list have the method *)
  mql_listening : bool;                (* is [onChange] registered *)
  href_throws : jsstring -> bool;      (* does assigning this URL raise *)
}.

Definition with_location_fragment (v : jsstring) (w : Window) : Window :=
  {| location_fragment := v; localStorage := localStorage w;
     mql_matches := mql_matches w;
     mql_addEventListener := mql_addEventListener w;
     mql_listening := mql_listening w; href_throws := href_throws w |}.
Definition with_localStorage (v : gmap jsstring jsstring) (w : Window) : Window :=
  {| location_fragment := location_fragment w; localStorage := v;
     mql_matches := mql_matches w;
     mql_addEventListener := mql_addEventListener w;
     mql_listening := mql_listening w; href_throws := href_throws w |}.
Definition with_mql_matches (v : bool) (w : Window) : Window :=
  {| location_fragment := location_fragment w; localStorage := localStorage w;
     mql_matches := v;
     mql_addEventListener := mql_addEventListener w;
     mql_listening := mql_listening w; href_throws := href_throws w |}.
Definition with_mql_listening (v : bool) (w : Window) : Window :=
  {| location_fragment := location_fragment w; localStorage := localStorage w;
     mql_matches := mql_matches w;
     mql_addEventListener := mql_addEventListener w;
     mql_listening := v; href_throws := href_throws w |}.

Inductive ScrollBehavior := b_smooth | b_auto | b_instant.

(** What the handlers do to the outside, in order. *)
Inductive Event :=
  | EvPreventDefault
  | EvSetStatus (s : Status)
  | EvNavigate (url : jsstring)                 (* window.location.href = url *)
  | EvFormReset
  | EvScrollIntoView (el : nat) (b : ScrollBehavior)
  | EvRender (r : ReactState)
  | EvSetItem (key value : jsstring).

(** [next]: the state cells as the setters left them; [shown]: the state of
    the last render; [deps]: the state the effects last ran with. *)
Record Page := {
  next : ReactState;
  shown : ReactState;
  deps : ReactState;
  doc : Document;
  win : Window;
  log : list Event;
}.

Definition with_next (v : ReactState) (p : Page) : Page :=
  {| next := v; shown := shown p; deps := deps p;
     doc := doc p; win := win p; log := log p |}.
Definition with_shown (v : ReactState) (p : Page) : Page :=
  {| next := next p; shown := v; deps := deps p;
     doc := doc p; win := win p; log := log p |}.
Definition with_deps (v : ReactState) (p : Page) : Page :=
  {| next := next p; shown := shown p; deps := v;
     doc := doc p; win := win p; log := log p |}.
Definition with_doc (v : Document) (p : Page) : Page :=
  {| next := next p; shown := shown p; deps := deps p;
     doc := v; win := win p; log := log p |}.
Definition with_win (v : Window) (p : Page) : Page :=
  {| next := next p; shown := shown p; deps := deps p;
     doc := doc p; win := v; log := log p |}.
Definition emit (e : Event) (p : Page) : Page :=
  {| next := next p; shown := shown p; deps := deps p;
     doc := doc p; win := win p; log := log p ++ [e] |}.

(** ** React's render / effect cycle *)

(** The state setters only queue the new value. *)
Definition setMenuOpen (f : bool -> bool) (p : Page) : Page :=
  with_next (with_menuOpen (f (menuOpen (next p))) (next p)) p.
Definition setPrefersReduced (v : bool) (p : Page) : Page :=
  with_next (with_prefersReduced v (next p)) p.
Definition setTheme (v : Theme) (p : Page) : Page :=
  with_next (with_theme v (next p)) p.
Definition setStatus (v : Status) (p : Page) : Page :=
  emit (EvSetStatus v) (with_next (with_status v (next p)) p).

Definition render (p : Page) : Page :=
  emit (EvRender (next p)) (with_shown (next p) p).

(** *** [useTheme] (lines 36-44) *)

Definition theme_key : jsstring := lit "wcc-theme".

Definition theme_str (t : Theme) : jsstring :=
  match t with
  | light => lit "light"
  | dark => lit "dark"
  end.

(** The initialiser of the state cell; [None] when there is no [window]. *)
Definition initTheme (w : option Window) : Theme :=
  match w with
  | None => light
  | Some w =>
    let saved := localStorage w !! theme_key in
    if decide (saved = Some (lit "dark")) then dark else light
  end.

Definition setItem (key value : jsstring) (p : Page) : Page :=
  emit (EvSetItem key value)
    (with_win (with_localStorage (<[key := value]> (localStorage (win p))) (win p)) p).

(** [useEffect(() => { localStorage.setItem('wcc-theme', theme); }, [theme])] *)
Definition effect_theme (p : Page) : Page :=
  setItem theme_key (theme_str (theme (shown p))) p.

(** *** [usePrefersReducedMotion] (lines 24-34) *)

(** [onChange]: [setPrefersReduced(mql.matches)] *)
Definition onChange (p : Page) : Page :=
  setPrefersReduced (mql_matches (win p)) p.

(** The mount effect: [onChange(); mql.addEventListener?.("change", onChange)] *)
Definition effect_reducedMotion (p : Page) : Page :=
  let p := onChange p in
  if mql_addEventListener (win p)
  then with_win (with_mql_listening true (win p)) p
  else p.

(** *** The component's effects (lines 208-216) *)

Definition effect_scrollBehavior (p : Page) : Page :=
  with_doc (with_root_scrollBehavior
              (if prefersReduced (shown p) then lit "auto" else lit "smooth")
              (doc p)) p.
Definition cleanup_scrollBehavior (p : Page) : Page :=
  with_doc (with_root_scrollBehavior (lit "auto") (doc p)) p.

Definition effect_overflow (p : Page) : Page :=
  with_doc (with_body_overflow
              (if menuOpen (shown p) then lit "hidden" else lit "")
              (doc p)) p.
Definition cleanup_overflow (p : Page) : Page :=
  with_doc (with_body_overflow (lit "") (doc p)) p.

(** After a render, each effect whose dependency changed runs its cleanup
    and then itself, in hook order. *)
Definition flush_effects (p : Page) : Page :=
  let p := if decide (theme (shown p) = theme (deps p)) then p
           else effect_theme p in
  let p := if decide (prefersReduced (shown p) = prefersReduced (deps p)) then p
           else effect_scrollBehavior (cleanup_scrollBehavior p) in
  let p := if decide (menuOpen (shown p) = menuOpen (deps p)) then p
           else effect_overflow (cleanup_overflow p) in
  with_deps (shown p) p.

(** A queued state that equals the rendered one causes no render. *)
Definition commit (p : Page) : Page :=
  if decide (next p = shown p) then p else flush_effects (render p).

Definition initial_state (w : option Window) : ReactState :=
  {| menuOpen := false; prefersReduced := false;
     theme := initTheme w; status := idle |}.

(** Page load: the first render, every effect once, and the render that the
    reduced-motion effect's [onChange()] may have queued. *)
Definition mount (w : Window) (d : Document) : Page :=
  let s := initial_state (Some w) in
  let p := {| next := s; shown := s; deps := s; doc := d; win := w;
              log := [EvRender s] |} in
  let p := effect_reducedMotion p in
  let p := effect_theme p in
  let p := effect_scrollBehavior p in
  let p := effect_overflow p in
  commit p.

(** The media query's [change] event. *)
Definition mql_change (matches : bool) (p : Page) : Page :=
  let p := with_win (with_mql_matches matches (win p)) p in
  commit (if mql_listening (win p) then onChange p else p).

(** ** Navigation *)

(** [document.getElementById]: the first element, in document order, whose
    id is the given one; the empty string is no element's id. *)
Definition getElementById (id : jsstring) (d : Document) : option nat :=
  match id with
  | [] => None
  | _ => fst <$> list_find (fun e => el_id e = id) (elements d)
  end.

Definition scrollIntoView (i : nat) (b : ScrollBehavior) (p : Page) : Page :=
  emit (EvScrollIntoView i b) p.

(** [el.setAttribute("tabindex", v)] *)
Definition set_tabindex (i : nat) (v : jsstring) (p : Page) : Page :=
  with_doc (with_elements
              (alter (fun e => {| el_id := el_id e; el_tabindex := Some v |}) i
                     (elements (doc p)))
              (doc p)) p.

(** [el.focus({ preventScroll: true })] on an element that has a tabindex. *)
Definition focus (i : nat) (p : Page) : Page :=
  match elements (doc p) !! i with
  | Some e =>
    match el_tabindex e with
    | Some _ => with_doc (with_activeElement (Some i) (doc p)) p
    | None => p
    end
  | None => p
  end.

(** [window.location.hash = v]: the setter drops one leading "#" and makes
    the rest the URL's fragment. *)
Definition set_location_hash (v : jsstring) (p : Page) : Page :=
  with_win (with_location_fragment (strip_hash v) (win p)) p.

(** [goTo] (lines 12-22) *)
Definition goTo (id : jsstring) (p : Page) : Page :=
  let targetId := strip_hash id in
  match getElementById targetId (doc p) with
  | Some el =>
    let p := scrollIntoView el b_smooth p in
    let p := set_tabindex el (lit "-1") p in
    focus el p
  | None => set_location_hash id p
  end.

(** [NavLink]'s click handler (lines 55-61). *)
Definition NavLink_onClick (href : jsstring) (onClick : option (Page -> Page))
    (p : Page) : Page :=
  if startsWith (lit "#") href then
    let p := emit EvPreventDefault p in
    let p := goTo href p in
    match onClick with
    | Some f => f p
    | None => p
    end
  else p.

(** The menu button (line 307) and the links of the open menu (lines 328-343). *)
Definition toggleMenu (p : Page) : Page := commit (setMenuOpen negb p).

Definition menu_links : list (jsstring * jsstring) :=
  [ (lit "About", lit "#about");
    (lit "Services", lit "#services");
    (lit "Gallery", lit "#gallery");
    (lit "How it works", lit "#how-it-works");
    (lit "Weddings", lit "#weddings");
    (lit "Vow renewals", lit "#vow-renewals");
    (lit "Naming", lit "#naming");
    (lit "Celebration of life", lit "#celebration-of-life");
    (lit "Privacy", lit "#privacy");
    (lit "Contact", lit "#contact") ].

Definition click_menu_link (href : jsstring) (p : Page) : Page :=
  commit (NavLink_onClick href (Some (setMenuOpen (fun _ => false))) p).

(** The theme buttons (lines 276, 300): [setTheme(isDark ? "light" : "dark")] *)
Definition click_theme_button (p : Page) : Page :=
  commit (setTheme (if decide (theme (shown p) = dark) then light else dark) p).

(** ** Service cards (lines 190-198, 445-500) *)

Definition serviceToId : gmap jsstring jsstring :=
  list_to_map
    [ (lit "Legal Weddings", lit "weddings");
      (lit "Commitment Weddings", lit "weddings");
      (lit "Elopement Weddings", lit "weddings");
      (lit "Naming Ceremonies", lit "naming");
      (lit "Vow Renewals", lit "vow-renewals");
      (lit "Celebration of Life", lit "celebration-of-life") ].

(** [serviceToId[title] ?? "services"] *)
Definition service_target (title : jsstring) : jsstring :=
  default (lit "services") (serviceToId !! title).

Definition card_titles : list jsstring :=
  [ lit "Legal Weddings"; lit "Commitment Weddings"; lit "Elopement Weddings";
    lit "Naming Ceremonies"; lit "Vow Renewals"; lit "Celebration of Life" ].

Definition divider_labels : list jsstring :=
  [ lit "Legal Weddings"; lit "Commitment Weddings"; lit "Elopement Weddings";
    lit "Naming Ceremonies"; lit "Vow Renewals";
    lit "Celebration of Life Ceremonies" ].

(** [const key = label.replace(" Ceremonies", "")] *)
Definition divider_key (label : jsstring) : jsstring :=
  replace (lit " Ceremonies") (lit "") label.

Definition card_target (title : jsstring) : jsstring := service_target title.
Definition divider_target (label : jsstring) : jsstring :=
  service_target (divider_key label).

Definition click_card (title : jsstring) (p : Page) : Page :=
  commit (goTo (lit "#" ++ card_target title) p).
Definition click_divider (label : jsstring) (p : Page) : Page :=
  commit (goTo (lit "#" ++ divider_target label) p).

(** The ids of the page's sections, in document order (line 352 and the
    [Section] elements of lines 431-892). *)
Definition section_ids : list jsstring :=
  [ lit "home"; lit "about"; lit "services"; lit "gallery";
    lit "how-it-works"; lit "weddings"; lit "vow-renewals"; lit "naming";
    lit "celebration-of-life"; lit "your-funeral"; lit "faq"; lit "privacy";
    lit "contact" ].

(** ** The contact form (lines 96-155) *)

Inductive exn := URIError | NavigationError.

Inductive result (A : Type) :=
  | Ok (a : A)
  | Throw (e : exn).
Arguments Ok {A} a.
Arguments Throw {A} e.

(** Statements of the handler: they change the page and complete or throw. *)
Definition M (A : Type) : Type := Page -> result A * Page.

#[global] Instance M_ret : MRet M := fun A a p => (Ok a, p).
#[global] Instance M_bind : MBind M := fun A B f m p =>
  match m p with
  | (Ok a, p') => f a p'
  | (Throw e, p') => (Throw e, p')
  end.

Definition throw {A} (e : exn) : M A := fun p => (Throw e, p).
Definition modify (f : Page -> Page) : M unit := fun p => (Ok tt, f p).
Definition gets {A} (f : Page -> A) : M A := fun p => (Ok (f p), p).

(** [try { body } catch { handler }]: the exception itself is dropped. *)
Definition try_catch {A} (body handler : M A) : M A := fun p =>
  match body p with
  | (Ok a, p') => (Ok a, p')
  | (Throw _, p') => handler p'
  end.

(** Unfolds the handler monad down to functions on pages. *)
Ltac unfold_M :=
  unfold mbind, M_bind, mret, M_ret, modify, gets, throw, try_catch in *.

(** [new FormData(form)]: the entries of the controls, in form order. *)
Definition new_FormData (f : list Control) : FormData :=
  omap (fun c => pair (c_name c) <$> c_value c) f.

(** [data.get(name)]: the first entry of that name, or null. *)
Definition FormData_get (name : jsstring) (data : FormData)
    : option FormDataEntryValue :=
  snd <$> (snd <$> list_find (fun e => fst e = name) data).

(** Truthiness of [data.get(..)]: null and the empty string are falsy. *)
Definition truthy (v : option FormDataEntryValue) : bool :=
  match v with
  | None => false
  | Some (EString []) => false
  | Some _ => true
  end.

(** [String(v ?? "")] *)
Definition String_or_empty (v : option FormDataEntryValue) : jsstring :=
  match default (EString (lit "")) v with
  | EString s => s
  | EFile => lit "[object File]"
  end.

Definition encode (s : jsstring) : M jsstring :=
  match encodeURIComponent s with
  | Some r => mret r
  | None => throw URIError
  end.

(** [window.location.href = url] *)
Definition set_location_href (url : jsstring) : M unit := fun p =>
  if href_throws (win p) url then (Throw NavigationError, p)
  else (Ok tt, emit (EvNavigate url) p).

(** [form.reset()]: every control returns to its default. *)
Definition reset_control (c : Control) : Control :=
  {| c_name := c_name c; c_value := c_default c; c_default := c_default c |}.

Definition form_reset (p : Page) : Page :=
  emit EvFormReset
    (with_doc (with_form (map reset_control (form (doc p))) (doc p)) p).

Definition mail_link (name contact type date message : jsstring) : jsstring :=
  lit "mailto:westcoastcelebrants@gmail.com?subject=Enquiry from " ++ name ++
  lit "&body=Contact: " ++ contact ++ lit "%0AType: " ++ type ++
  lit "%0ADate: " ++ date ++ lit "%0A%0A" ++ message.

(** The body of the [try] block (lines 105-114). *)
Definition compose_and_dispatch (data : FormData) : M unit :=
  name ← encode (String_or_empty (FormData_get (lit "name") data)) ;
  contact ← encode (String_or_empty (FormData_get (lit "contact") data)) ;
  type ← encode (String_or_empty (FormData_get (lit "type") data)) ;
  date ← encode (String_or_empty (FormData_get (lit "date") data)) ;
  message ← encode (String_or_empty (FormData_get (lit "message") data)) ;
  set_location_href (mail_link name contact type date message) ;;
  modify (setStatus ok) ;;
  modify form_reset.

(** [onSubmit] (lines 98-118) *)
Definition onSubmit : M unit :=
  modify (emit EvPreventDefault) ;;
  data ← gets (fun p => new_FormData (form (doc p))) ;
  if truthy (FormData_get (lit "company") data) then mret tt
  else
    modify (setStatus sending) ;;
    try_catch (compose_and_dispatch data) (modify (setStatus error)).

(** Submitting the form: the handler, then React's commit. *)
Definition submit (p : Page) : Page := commit (snd (onSubmit p)).

(** The status lines under the form (lines 151-152). *)
Definition status_message (s : Status) : option jsstring :=
  match s with
  | ok => Some (lit "Thanks! We" ++ [0x2019] ++ lit "ll get back to you soon.")
  | error => Some (lit "Sorry, something went wrong. Please email us directly.")
  | _ => None
  end.

(** The submit button (lines 140-146). *)
Definition button_disabled (s : Status) : bool := bool_decide (s = sending).

(** ** The page as shipped *)

Definition text_control (name : string) (value : jsstring) : Control :=
  {| c_name := lit name; c_value := Some (EString value);
     c_default := Some (EString (lit "")) |}.

(** The [select] (lines 128-136): its default option is the disabled
    placeholder, which contributes no entry. *)
Definition select_control (name : string) (value : option jsstring) : Control :=
  {| c_name := lit name; c_value := EString <$> value; c_default := None |}.

(** The form's controls, in source order (lines 125-138). *)
Definition contact_form (company name contact : jsstring) (type : option jsstring)
    (date message : jsstring) : list Control :=
  [ text_control "company" company; text_control "name" name;
    text_control "contact" contact; select_control "type" type;
    text_control "date" date; text_control "message" message ].

Definition blank_form : list Control :=
  contact_form (lit "") (lit "") (lit "") None (lit "") (lit "").

(** [<main id="main">], the hero section (no tabindex) and the [Section]s
    (each rendered with [tabIndex={-1}], line 75). *)
Definition site_elements : list Element :=
  {| el_id := lit "main"; el_tabindex := None |} ::
  {| el_id := lit "home"; el_tabindex := None |} ::
  map (fun id => {| el_id := id; el_tabindex := Some (lit "-1") |})
      (tail section_ids).

Definition site_document (f : list Control) : Document :=
  {| elements := site_elements; activeElement := None;
     body_overflow := lit ""; root_scrollBehavior := lit ""; form := f |}.

Definition site_window (storage : gmap jsstring jsstring) (reduced : bool)
    : Window :=
  {| location_fragment := lit ""; localStorage := storage;
     mql_matches := reduced; mql_addEventListener := true;
     mql_listening := false; href_throws := fun _ => false |}.

(** ** User and system actions *)

Inductive Action :=
  | ClickThemeButton
  | CallSetTheme (v : Theme)
  | ClickMenuButton
  | ClickMenuLink (href : jsstring)
  | CallGoTo (id : jsstring)
  | ClickCard (title : jsstring)
  | ClickDivider (label : jsstring)
  | MediaChange (matches : bool)
  | SubmitForm.

Definition step (p : Page) (a : Action) : Page :=
  match a with
  | ClickThemeButton => click_theme_button p
  | CallSetTheme v => commit (setTheme v p)
  | ClickMenuButton => toggleMenu p
  | ClickMenuLink href => click_menu_link href p
  | CallGoTo id => commit (goTo id p)
  | ClickCard title => click_card title p
  | ClickDivider label => click_divider label p
  | MediaChange b => mql_change b p
  | SubmitForm => submit p
  end.

Definition run (p : Page) (acts : list Action) : Page := foldl step p acts.

(** The effects have caught up with the rendered state: the slot holds the
    rendered theme, the body's overflow follows the menu and the root's
    scroll behaviour follows the reduced-motion cell. *)
Definition synced (p : Page) : Prop :=
  deps p = shown p /\
  localStorage (win p) !! theme_key = Some (theme_str (theme (shown p))) /\
  body_overflow (doc p) = (if menuOpen (shown p) then lit "hidden" else lit "") /\
  root_scrollBehavior (doc p) =
    (if prefersReduced (shown p) then lit "auto" else lit "smooth").

(** Nothing is queued either: the page is at rest between two events. *)
Definition settled (p : Page) : Prop := next p = shown p /\ synced p.

(** What an event handler leaves to the render and its effects. *)
Definition handler_frame (p q : Page) : Prop :=
  shown q = shown p /\ deps q = deps p /\
  localStorage (win q) = localStorage (win p) /\
  body_overflow (doc q) = body_overflow (doc p) /\
  root_scrollBehavior (doc q) = root_scrollBehavior (doc p).

(** The persisted slot, as a page load finds it. *)
Definition theme_slot (w : option Window) : option jsstring :=
  w ≫= fun w => localStorage w !! theme_key.

(** A reload: the page is mounted again over the window as it was left. *)
Definition reload (p : Page) (d : Document) : Page := mount (win p) d.

(** The mail link as the specification writes it, with line feeds between
    the parts of the body. *)
Definition spec_mail_link (name contact type date message : jsstring) : jsstring :=
  lit "mailto:westcoastcelebrants@gmail.com?subject=Enquiry from " ++ name ++
  lit "&body=Contact: " ++ contact ++ [10] ++ lit "Type: " ++ type ++
  [10] ++ lit "Date: " ++ date ++ [10; 10] ++ message.

(** The submission of the specification's example, on a freshly loaded page. *)
Definition jane_form : list Control :=
  contact_form (lit "") (lit "Jane") (lit "jane@example.com")
    (Some (lit "Legal Wedding")) (lit "") (lit "Hello").

Definition jane_page : Page :=
  mount (site_window ∅ false) (site_document jane_form).

(** ** Vocabulary of the properties *)

(** The entries the handler reads: those of the form at submission time. *)
Definition submitted (p : Page) : FormData := new_FormData (form (doc p)).

Definition honeypot (p : Page) : bool :=
  truthy (FormData_get (lit "company") (submitted p)).

Definition field (name : string) (p : Page) : jsstring :=
  String_or_empty (FormData_get (lit name) (submitted p)).

(** Every string the form's controls hold is free of lone surrogates. *)
Definition form_well_formed (f : list Control) : Prop :=
  Forall (fun c => match c_value c with
                   | Some (EString s) => well_formed s = true
                   | _ => True
                   end) f.

(** A submission by a script that filled in the hidden field. *)
Definition bot_page : Page :=
  mount (site_window ∅ false)
    (site_document (contact_form (lit "Acme Ltd") (lit "Bot") (lit "bot@example.com")
                      (Some (lit "Elopement Wedding")) (lit "") (lit "Buy now"))).

(** The shipped form, submitted with the ceremony type left on its disabled
    placeholder: the [type] entry is absent. *)
Definition untyped_page : Page :=
  mount (site_window ∅ false)
    (site_document (contact_form (lit "") (lit "Jo") (lit "087 123") None
                      (lit "") (lit "Hi"))).

(** ** Class names (lines 46-48) *)

(** An argument of [cx]: [string | false | null | undefined]. *)
Inductive ClassPart :=
  | CStr (s : jsstring)
  | CFalse
  | CNull
  | CUndefined.

(** [Boolean(part)]: only a non-empty string is truthy. *)
Definition Boolean (part : ClassPart) : bool :=
  match part with
  | CStr (_ :: _) => true
  | _ => false
  end.

(** The text [Array.prototype.join] gives an element: null and undefined
    give the empty string. *)
Definition part_string (part : ClassPart) : jsstring :=
  match part with
  | CStr s => s
  | CFalse => lit "false"
  | CNull | CUndefined => lit ""
  end.

(** [l.join(sep)] *)
Fixpoint join (sep : jsstring) (l : list jsstring) : jsstring :=
  match l with
  | [] => []
  | x :: l' =>
    match l' with
    | [] => x
    | _ :: _ => x ++ sep ++ join sep l'
    end
  end.

(** [cx(...parts)]: [parts.filter(Boolean).join(" ")] *)
Definition cx (parts : list ClassPart) : jsstring :=
  join (lit " ") (map part_string (List.filter Boolean parts)).

(** ** Unmounting (the cleanups of lines 31, 210, 215) *)

(** [mql.removeEventListener?.("change", onChange)]; a query list that has
    [addEventListener] has [removeEventListener] too. *)
Definition cleanup_reducedMotion (p : Page) : Page :=
  if mql_addEventListener (win p)
  then with_win (with_mql_listening false (win p)) p
  else p.

Definition unmount (p : Page) : Page :=
  cleanup_overflow (cleanup_scrollBehavior (cleanup_reducedMotion p)).

(** ** More vocabulary *)

(** The characters [encodeURIComponent] can produce: the unreserved ones
    and "%". *)
Definition uri_char (c : N) : bool := uriUnescaped c || (c =? 37).

(** Strings of 16-bit code units. *)
Definition sixteen_bit (s : jsstring) : Prop := Forall (fun c => c < 65536) s.

Definition form_sixteen_bit (f : list Control) : Prop :=
  Forall (fun c => match c_value c with
                   | Some (EString s) => sixteen_bit s
                   | _ => True
                   end) f.

(** The URLs a log sends the user agent to. *)
Definition navigations (l : list Event) : list jsstring :=
  omap (fun e => match e with EvNavigate url => Some url | _ => None end) l.

(** The status changes of a log. *)
Definition status_changes (l : list Event) : list Status :=
  omap (fun e => match e with EvSetStatus s => Some s | _ => None end) l.

(** What one run of a handler added to the log. *)
Definition added (before after : Page) : list Event :=
  drop (length (log before)) (log after).

(** The system preference after a sequence of actions: the one the last
    media change announced, or the initial one. *)
Definition last_preference (initial : bool) (acts : list Action) : bool :=
  foldl (fun m a => match a with MediaChange b => b | _ => m end) initial acts.

(** A submission that tries to add a copy recipient and a second line. *)
Definition injecting_page : Page :=
  mount (site_window ∅ false)
    (site_document (contact_form (lit "") (lit "Eve&cc=all@example.com")
                      (lit "eve@example.com?x") (Some (lit "Vow Renewal"))
                      (lit "") (lit "Hi" ++ [13; 10] ++ lit "#there"))).

(** * Properties *)

(** ** The model on concrete inputs *)

Example encode_legal_wedding :
  encodeURIComponent (lit "Legal Wedding") = Some (lit "Legal%20Wedding").
Proof. reflexivity. Qed.

Example encode_email :
  encodeURIComponent (lit "jane@example.com") = Some (lit "jane%40example.com").
Proof. reflexivity. Qed.

Example encode_euro : encodeURIComponent [0x20AC] = Some (lit "%E2%82%AC").
Proof. reflexivity. Qed.

Example encode_astral :
  encodeURIComponent [0xD83D; 0xDE00] = Some (lit "%F0%9F%98%80").
Proof. reflexivity. Qed.

Example encode_lone_surrogate : encodeURIComponent [0xD83D; 65] = None.
Proof. reflexivity. Qed.

(** ** [encodeURIComponent] *)

Lemma uriUnescaped_ascii c : uriUnescaped c = true -> c < 128.
Proof.
  unfold uriUnescaped, in_range.
  rewrite !orb_true_iff, !andb_true_iff, !N.leb_le, bool_decide_eq_true.
  intros [[[[_ H]|[_ H]]|[_ H]]|H]; try lia.
  vm_compute in H.
  repeat (apply elem_of_cons in H as [->|H]; [lia|]).
  by apply elem_of_nil in H.
Qed.

Lemma uriUnescaped_not_surrogate c :
  uriUnescaped c = true -> is_low_surrogate c = false /\ is_high_surrogate c = false.
Proof.
  intros H%uriUnescaped_ascii.
  unfold is_low_surrogate, is_high_surrogate, in_range.
  rewrite !andb_false_iff, !N.leb_gt. lia.
Qed.

(** On a string without lone surrogates [encodeURIComponent] returns. *)
Lemma encodeURIComponent_total s :
  well_formed s = true -> is_Some (encodeURIComponent s).
Proof.
  remember (length s) as n eqn:Hn.
  revert s Hn. induction n as [n IH] using lt_wf_ind. intros s Hn Hwf.
  destruct s as [|c rest]; [by eexists|].
  simpl in Hwf |- *.
  destruct (uriUnescaped c) eqn:Hu.
  - destruct (uriUnescaped_not_surrogate c Hu) as [Hl Hh].
    rewrite Hl, Hh in Hwf.
    destruct (IH (length rest)) with (s := rest) as [r ->];
      simpl in *; [lia|done|done|by eexists].
  - destruct (is_low_surrogate c); [done|].
    destruct (is_high_surrogate c).
    + destruct rest as [|d rest']; [done|].
      apply andb_true_iff in Hwf as [-> Hwf].
      destruct (IH (length rest')) with (s := rest') as [r ->];
        simpl in *; [lia|done|done|by eexists].
    + destruct (IH (length rest)) with (s := rest) as [r ->];
        simpl in *; [lia|done|done|by eexists].
Qed.

(** ** The contact form *)

Lemma FormData_get_elem name data v :
  FormData_get name data = Some v -> (name, v) ∈ data.
Proof.
  unfold FormData_get. intros H.
  destruct (list_find _ data) as [[i [k v']]|] eqn:Hf; simplify_eq/=.
  apply list_find_Some in Hf as (Hi & Hk & _). simpl in Hk. subst k.
  by eapply list_elem_of_lookup_2.
Qed.

Lemma field_well_formed f name :
  form_well_formed f ->
  well_formed (String_or_empty (FormData_get name (new_FormData f))) = true.
Proof.
  intros Hf. unfold String_or_empty.
  destruct (FormData_get name (new_FormData f)) as [[s|]|] eqn:Hg; try done.
  apply FormData_get_elem in Hg. unfold new_FormData in Hg.
  apply list_elem_of_omap in Hg as (c & Hc & Hv).
  eapply Forall_forall in Hf; [|done].
  destruct (c_value c) as [[s'|]|]; simplify_eq/=. done.
Qed.

Lemma field_encodes f name :
  form_well_formed f ->
  is_Some (encodeURIComponent (String_or_empty (FormData_get name (new_FormData f)))).
Proof. intros. by apply encodeURIComponent_total, field_well_formed. Qed.

Lemma onSubmit_honeypot p :
  honeypot p = true -> onSubmit p = (Ok tt, emit EvPreventDefault p).
Proof.
  unfold honeypot, submitted, onSubmit. unfold_M. simpl. by intros ->.
Qed.

Lemma onSubmit_open p :
  honeypot p = false ->
  onSubmit p =
    let p1 := setStatus sending (emit EvPreventDefault p) in
    match compose_and_dispatch (submitted p) p1 with
    | (Ok _, p2) => (Ok tt, p2)
    | (Throw _, p2) => (Ok tt, setStatus error p2)
    end.
Proof.
  unfold honeypot, submitted, onSubmit. unfold_M. simpl. intros ->.
  by destruct (compose_and_dispatch _ _) as [[[]|e] p2].
Qed.

Lemma compose_success data p n c t d m :
  encodeURIComponent (String_or_empty (FormData_get (lit "name") data)) = Some n ->
  encodeURIComponent (String_or_empty (FormData_get (lit "contact") data)) = Some c ->
  encodeURIComponent (String_or_empty (FormData_get (lit "type") data)) = Some t ->
  encodeURIComponent (String_or_empty (FormData_get (lit "date") data)) = Some d ->
  encodeURIComponent (String_or_empty (FormData_get (lit "message") data)) = Some m ->
  href_throws (win p) (mail_link n c t d m) = false ->
  compose_and_dispatch data p =
    (Ok tt, form_reset (setStatus ok (emit (EvNavigate (mail_link n c t d m)) p))).
Proof.
  intros Hn Hc Ht Hd Hm Hh.
  unfold compose_and_dispatch, encode, set_location_href. unfold_M.
  by rewrite Hn, Hc, Ht, Hd, Hm, Hh.
Qed.

(** A throw leaves the page as the [try] block found it, whatever was thrown. *)
Lemma compose_throw data p e p' :
  compose_and_dispatch data p = (Throw e, p') -> p' = p.
Proof.
  unfold compose_and_dispatch, encode, set_location_href. unfold_M.
  repeat (destruct (encodeURIComponent _); [|by intros [= _ <-]]).
  destruct (href_throws _ _); [by intros [= _ <-]|done].
Qed.

Lemma onSubmit_success p n c t d m :
  honeypot p = false ->
  encodeURIComponent (field "name" p) = Some n ->
  encodeURIComponent (field "contact" p) = Some c ->
  encodeURIComponent (field "type" p) = Some t ->
  encodeURIComponent (field "date" p) = Some d ->
  encodeURIComponent (field "message" p) = Some m ->
  href_throws (win p) (mail_link n c t d m) = false ->
  onSubmit p =
    (Ok tt, form_reset (setStatus ok (emit (EvNavigate (mail_link n c t d m))
                          (setStatus sending (emit EvPreventDefault p))))).
Proof.
  intros Hh Hn Hc Ht Hd Hm Hr. rewrite onSubmit_open by done. cbv zeta.
  by erewrite compose_success.
Qed.

Lemma onSubmit_failure p e p' :
  honeypot p = false ->
  compose_and_dispatch (submitted p)
    (setStatus sending (emit EvPreventDefault p)) = (Throw e, p') ->
  onSubmit p =
    (Ok tt, setStatus error (setStatus sending (emit EvPreventDefault p))).
Proof.
  intros Hh Hc. rewrite onSubmit_open by done. cbv zeta.
  rewrite Hc. by rewrite (compose_throw _ _ _ _ Hc).
Qed.

Lemma compose_ok_inv data p a p2 :
  compose_and_dispatch data p = (Ok a, p2) ->
  exists n c t d m,
    p2 = form_reset (setStatus ok (emit (EvNavigate (mail_link n c t d m)) p)).
Proof.
  unfold compose_and_dispatch, encode, set_location_href. unfold_M.
  destruct (encodeURIComponent _) as [n|]; [|done].
  destruct (encodeURIComponent _) as [c|]; [|done].
  destruct (encodeURIComponent _) as [t|]; [|done].
  destruct (encodeURIComponent _) as [d|]; [|done].
  destruct (encodeURIComponent _) as [m|]; [|done].
  destruct (href_throws _ _); [done|].
  intros [= _ <-]. by exists n, c, t, d, m.
Qed.

Lemma commit_next p : next (commit p) = next p.
Proof.
  unfold commit, flush_effects, render. case_decide; [done|].
  repeat case_decide; reflexivity.
Qed.

Lemma commit_shown p : shown (commit p) = next p.
Proof.
  unfold commit, flush_effects, render. case_decide; [done|].
  repeat case_decide; reflexivity.
Qed.

Lemma reset_contact_form a b c t d m :
  map reset_control (contact_form a b c t d m) = blank_form.
Proof. reflexivity. Qed.

(** C2: when the honeypot field is filled in, the handler returns at once:
    the state cells, the document and the window are as they were, no status
    is set and no mail link is composed or dispatched; the only thing that
    happened is the event's [preventDefault]. *)
Theorem honeypot_aborts_silently p :
  honeypot p = true ->
  fst (onSubmit p) = Ok tt /\
  next (snd (onSubmit p)) = next p /\
  shown (snd (onSubmit p)) = shown p /\
  doc (snd (onSubmit p)) = doc p /\
  win (snd (onSubmit p)) = win p /\
  log (snd (onSubmit p)) = log p ++ [EvPreventDefault] /\
  status (shown (submit p)) = status (next p).
Proof.
  intros H. unfold submit. rewrite commit_shown.
  rewrite (onSubmit_honeypot p H). by repeat split.
Qed.

Lemma honeypot_aborts_silently_witness :
  honeypot bot_page = true /\
  log (snd (onSubmit bot_page)) = log bot_page ++ [EvPreventDefault] /\
  status (shown (submit bot_page)) = idle.
Proof.
  split; [reflexivity|].
  destruct (honeypot_aborts_silently bot_page) as (_ & _ & _ & _ & _ & Hl & Hs);
    [reflexivity|].
  split; [exact Hl|exact Hs].
Defined.

(** C1 (amended): for a submission with the honeypot empty, well-formed field
    values and a navigation that does not raise, the handler sends the user
    agent to
    [mailto:westcoastcelebrants@gmail.com?subject=Enquiry from <name>&body=Contact: <contact>%0AType: <type>%0ADate: <date>%0A%0A<message>]
    where each of the five values is the [encodeURIComponent] of the field,
    and the status becomes [ok]; the separators of the body are the literal
    text [%0A].  For the example submission the subject holds "Jane" and the
    body holds "Legal%20Wedding" and "Hello". *)
Theorem mail_link_shape :
  (forall p,
     honeypot p = false ->
     form_well_formed (form (doc p)) ->
     (forall url, href_throws (win p) url = false) ->
     exists name contact type date message,
       encodeURIComponent (field "name" p) = Some name /\
       encodeURIComponent (field "contact" p) = Some contact /\
       encodeURIComponent (field "type" p) = Some type /\
       encodeURIComponent (field "date" p) = Some date /\
       encodeURIComponent (field "message" p) = Some message /\
       log (snd (onSubmit p)) =
         log p ++
         [ EvPreventDefault; EvSetStatus sending;
           EvNavigate
             (lit "mailto:westcoastcelebrants@gmail.com?subject=Enquiry from "
              ++ name ++ lit "&body=Contact: " ++ contact
              ++ lit "%0AType: " ++ type ++ lit "%0ADate: " ++ date
              ++ lit "%0A%0A" ++ message);
           EvSetStatus ok; EvFormReset ] /\
       status (next (snd (onSubmit p))) = ok /\
       status (shown (submit p)) = ok) /\
  (let subject := lit "Enquiry from Jane" in
   let body :=
     lit "Contact: jane%40example.com%0AType: Legal%20Wedding%0ADate: %0A%0AHello" in
   log (snd (onSubmit jane_page)) =
     log jane_page ++
     [ EvPreventDefault; EvSetStatus sending;
       EvNavigate (lit "mailto:westcoastcelebrants@gmail.com?subject=" ++ subject
                   ++ lit "&body=" ++ body);
       EvSetStatus ok; EvFormReset ] /\
   includes (lit "Jane") subject = true /\
   includes (lit "Legal%20Wedding") body = true /\
   includes (lit "Hello") body = true /\
   status (shown (submit jane_page)) = ok).
Proof.
  split; [|by vm_compute].
  intros p Hh Hwf Hr.
  destruct (field_encodes _ (lit "name") Hwf) as [n Hn].
  destruct (field_encodes _ (lit "contact") Hwf) as [c Hc].
  destruct (field_encodes _ (lit "type") Hwf) as [t Ht].
  destruct (field_encodes _ (lit "date") Hwf) as [d Hd].
  destruct (field_encodes _ (lit "message") Hwf) as [m Hm].
  exists n, c, t, d, m. repeat (split; [done|]).
  unfold submit. rewrite commit_shown.
  rewrite (onSubmit_success p n c t d m) by done.
  simpl. by rewrite <- !app_assoc.
Qed.

Lemma mail_link_shape_witness :
  honeypot jane_page = false /\
  exists name contact type date message,
    encodeURIComponent (field "name" jane_page) = Some name /\
    encodeURIComponent (field "contact" jane_page) = Some contact /\
    encodeURIComponent (field "type" jane_page) = Some type /\
    encodeURIComponent (field "date" jane_page) = Some date /\
    encodeURIComponent (field "message" jane_page) = Some message /\
    log (snd (onSubmit jane_page)) =
      log jane_page ++
      [ EvPreventDefault; EvSetStatus sending;
        EvNavigate
          (lit "mailto:westcoastcelebrants@gmail.com?subject=Enquiry from "
           ++ name ++ lit "&body=Contact: " ++ contact
           ++ lit "%0AType: " ++ type ++ lit "%0ADate: " ++ date
           ++ lit "%0A%0A" ++ message);
        EvSetStatus ok; EvFormReset ] /\
    status (next (snd (onSubmit jane_page))) = ok /\
    status (shown (submit jane_page)) = ok.
Proof.
  split; [reflexivity|].
  apply (proj1 mail_link_shape jane_page); [reflexivity| |reflexivity].
  repeat constructor.
Defined.

(** C1, as stated, fails on the example submission: the link the handler
    composes is not the one with line feeds between the parts of the body;
    it holds no line feed at all. *)
Lemma mail_link_has_no_line_feed :
  exists url,
    EvNavigate url ∈ log (snd (onSubmit jane_page)) /\
    url <> spec_mail_link (lit "Jane") (lit "jane%40example.com")
             (lit "Legal%20Wedding") (lit "") (lit "Hello") /\
    (10 ∉ url) /\
    includes (lit "%0AType: ") url = true.
Proof.
  eexists. split; [|split; [|split]].
  - vm_compute. do 4 right. left.
  - by vm_compute.
  - vm_compute. intros H.
    repeat (apply elem_of_cons in H as [H|H]; [done|]).
    by apply elem_of_nil in H.
  - reflexivity.
Qed.

(** C3: with the honeypot empty the handler first sets the status to
    [sending].  If composing and dispatching the link completes, the status
    becomes [ok] and every control is reset (the shipped form is blank again).
    If either raises, whatever the exception, the status becomes [error], the
    one generic message is what the form shows, and nothing further is
    attempted: no navigation is logged and the handler returns. *)
Theorem submit_outcomes p :
  honeypot p = false ->
  let p1 := setStatus sending (emit EvPreventDefault p) in
  log p1 = log p ++ [EvPreventDefault; EvSetStatus sending] /\
  status (next p1) = sending /\
  (forall a p2,
     compose_and_dispatch (submitted p) p1 = (Ok a, p2) ->
     onSubmit p = (Ok tt, p2) /\
     (exists url, log p2 = log p1 ++ [EvNavigate url; EvSetStatus ok; EvFormReset]) /\
     status (next p2) = ok /\
     status (shown (submit p)) = ok /\
     form (doc p2) = map reset_control (form (doc p)) /\
     (forall a b c t d m,
        form (doc p) = contact_form a b c t d m -> form (doc p2) = blank_form)) /\
  (forall e p2,
     compose_and_dispatch (submitted p) p1 = (Throw e, p2) ->
     onSubmit p = (Ok tt, setStatus error p1) /\
     log (snd (onSubmit p)) =
       log p ++ [EvPreventDefault; EvSetStatus sending; EvSetStatus error] /\
     status (next (snd (onSubmit p))) = error /\
     status (shown (submit p)) = error /\
     status_message (status (shown (submit p))) =
       Some (lit "Sorry, something went wrong. Please email us directly.") /\
     doc (snd (onSubmit p)) = doc p /\
     win (snd (onSubmit p)) = win p).
Proof.
  intros Hh p1. subst p1.
  split; [by simpl; rewrite <- app_assoc|]. split; [done|]. split.
  - intros a p2 Hc. unfold submit. rewrite commit_shown.
    rewrite onSubmit_open by done. cbv zeta. rewrite Hc.
    apply compose_ok_inv in Hc as (n & c & t & d & m & ->).
    split; [done|]. split; [|split; [done|split; [done|split; [done|]]]].
    + eexists. simpl. by rewrite <- !app_assoc.
    + intros a' b' c' t' d' m' Hf. simpl. rewrite Hf. apply reset_contact_form.
  - intros e p2 Hc. unfold submit. rewrite commit_shown.
    rewrite (onSubmit_failure p e p2) by done.
    split; [done|]. split; [by simpl; rewrite <- !app_assoc|]. done.
Qed.

Lemma submit_outcomes_witness :
  honeypot jane_page = false /\
  status (shown (submit jane_page)) = ok /\
  form (doc (snd (onSubmit jane_page))) = blank_form.
Proof.
  split; [reflexivity|].
  destruct (submit_outcomes jane_page) as (_ & _ & Hok & _); [reflexivity|].
  destruct (Hok tt (snd (onSubmit jane_page))) as (_ & _ & _ & Hs & _ & Hf);
    [reflexivity|].
  split; [exact Hs|]. by apply (Hf (lit "") (lit "Jane") (lit "jane@example.com")
    (Some (lit "Legal Wedding")) (lit "") (lit "Hello")).
Defined.

(** Both kinds of failure end the same way. *)
Example submit_lone_surrogate :
  let p := mount (site_window ∅ false)
             (site_document (contact_form (lit "") [0xD83D] (lit "a@b.ie")
                               (Some (lit "Vow Renewal")) (lit "") (lit "Hi"))) in
  fst (compose_and_dispatch (submitted p)
         (setStatus sending (emit EvPreventDefault p))) = Throw URIError /\
  status (shown (submit p)) = error.
Proof. by vm_compute. Qed.

Example submit_navigation_raises :
  let w := with_mql_listening false (site_window ∅ false) in
  let w := {| location_fragment := location_fragment w;
              localStorage := localStorage w; mql_matches := mql_matches w;
              mql_addEventListener := mql_addEventListener w;
              mql_listening := mql_listening w; href_throws := fun _ => true |} in
  let p := mount w (site_document jane_form) in
  fst (compose_and_dispatch (submitted p)
         (setStatus sending (emit EvPreventDefault p))) = Throw NavigationError /\
  status (shown (submit p)) = error.
Proof. by vm_compute. Qed.

(** C10: a field that is absent from the submission is read as the empty
    string and encodes to the empty string, so an absent field never makes
    the composition raise; with the honeypot empty the link is composed with
    its five labelled parts, the part of an absent field being empty. *)
Theorem absent_fields_compose :
  (forall name data p,
     FormData_get name data = None ->
     String_or_empty (FormData_get name data) = lit "" /\
     encode (String_or_empty (FormData_get name data)) p = (Ok (lit ""), p)) /\
  (forall p,
     honeypot p = false ->
     form_well_formed (form (doc p)) ->
     (forall url, href_throws (win p) url = false) ->
     exists name contact type date message,
       (FormData_get (lit "name") (submitted p) = None -> name = lit "") /\
       (FormData_get (lit "contact") (submitted p) = None -> contact = lit "") /\
       (FormData_get (lit "type") (submitted p) = None -> type = lit "") /\
       (FormData_get (lit "date") (submitted p) = None -> date = lit "") /\
       (FormData_get (lit "message") (submitted p) = None -> message = lit "") /\
       onSubmit p =
         (Ok tt,
          form_reset (setStatus ok
            (emit (EvNavigate
                     (lit "mailto:westcoastcelebrants@gmail.com?subject=Enquiry from "
                      ++ name ++ lit "&body=Contact: " ++ contact
                      ++ lit "%0AType: " ++ type ++ lit "%0ADate: " ++ date
                      ++ lit "%0A%0A" ++ message))
               (setStatus sending (emit EvPreventDefault p)))))) /\
  (let p := mount (site_window ∅ false) (site_document []) in
   submitted p = [] /\
   log (snd (onSubmit p)) =
     log p ++
     [ EvPreventDefault; EvSetStatus sending;
       EvNavigate
         (lit "mailto:westcoastcelebrants@gmail.com?subject=Enquiry from &body=Contact: %0AType: %0ADate: %0A%0A");
       EvSetStatus ok; EvFormReset ]).
Proof.
  split; [|split; [|by vm_compute]].
  - intros name data p ->. done.
  - intros p Hh Hwf Hr.
    destruct (field_encodes _ (lit "name") Hwf) as [n Hn].
    destruct (field_encodes _ (lit "contact") Hwf) as [c Hc].
    destruct (field_encodes _ (lit "type") Hwf) as [t Ht].
    destruct (field_encodes _ (lit "date") Hwf) as [d Hd].
    destruct (field_encodes _ (lit "message") Hwf) as [m Hm].
    exists n, c, t, d, m.
    split; [intros H; unfold submitted in H; rewrite H in Hn; by injection Hn|].
    split; [intros H; unfold submitted in H; rewrite H in Hc; by injection Hc|].
    split; [intros H; unfold submitted in H; rewrite H in Ht; by injection Ht|].
    split; [intros H; unfold submitted in H; rewrite H in Hd; by injection Hd|].
    split; [intros H; unfold submitted in H; rewrite H in Hm; by injection Hm|].
    by apply onSubmit_success.
Qed.

Lemma absent_fields_compose_witness :
  FormData_get (lit "type") (submitted untyped_page) = None /\
  exists name contact date message,
    log (snd (onSubmit untyped_page)) =
      log untyped_page ++
      [ EvPreventDefault; EvSetStatus sending;
        EvNavigate
          (lit "mailto:westcoastcelebrants@gmail.com?subject=Enquiry from "
           ++ name ++ lit "&body=Contact: " ++ contact
           ++ lit "%0AType: " ++ lit "" ++ lit "%0ADate: " ++ date
           ++ lit "%0A%0A" ++ message);
        EvSetStatus ok; EvFormReset ].
Proof.
  split; [reflexivity|].
  destruct (proj1 (proj2 absent_fields_compose) untyped_page)
    as (n & c & t & d & m & _ & _ & Ht & _ & _ & Heq);
    [reflexivity|repeat constructor|reflexivity|].
  rewrite (Ht eq_refl) in Heq. rewrite Heq.
  exists n, c, d, m. simpl. by rewrite <- !app_assoc.
Defined.

(** ** Navigation *)

Lemma strip_hash_prefixed s : strip_hash (lit "#" ++ s) = s.
Proof. reflexivity. Qed.

Lemma strip_hash_plain s : startsWith (lit "#") s = false -> strip_hash s = s.
Proof.
  destruct s as [|c s]; [done|]. unfold strip_hash.
  destruct (N.eqb_spec c 35) as [->|Hne]; [|done].
  intros H. by vm_compute in H.
Qed.

Lemma getElementById_Some id d el :
  getElementById id d = Some el ->
  exists e, elements d !! el = Some e /\ el_id e = id.
Proof.
  unfold getElementById. destruct id as [|c id]; [done|].
  destruct (list_find _ _) as [[i e]|] eqn:Hf; [|done].
  intros [= <-]. apply list_find_Some in Hf as (Hi & He & _). by exists e.
Qed.

(** What [goTo] logs: one smooth [scrollIntoView] when the element exists. *)
Lemma goTo_log id p :
  log (goTo id p) =
    log p ++ match getElementById (strip_hash id) (doc p) with
             | Some el => [EvScrollIntoView el b_smooth]
             | None => []
             end.
Proof.
  unfold goTo. destruct (getElementById _ _) as [el|]; simpl.
  - unfold focus. by repeat case_match.
  - by rewrite app_nil_r.
Qed.

Lemma goTo_found id p el :
  getElementById (strip_hash id) (doc p) = Some el ->
  activeElement (doc (goTo id p)) = Some el /\
  (el_tabindex <$> elements (doc (goTo id p)) !! el) = Some (Some (lit "-1")) /\
  win (goTo id p) = win p.
Proof.
  intros H. unfold goTo. rewrite H.
  apply getElementById_Some in H as (e & He & _).
  unfold focus. simpl.
  rewrite list_lookup_alter, decide_True, He by done. simpl.
  by rewrite list_lookup_alter, decide_True, He by done.
Qed.

(** C5: for an id [s] written without the leading "#", [goTo(s)] and
    [goTo("#" + s)] leave the page in the same state.  When an element has
    that id, [goTo] scrolls it into view and makes it the focused element;
    when none has, [goTo] returns normally and the page differs from the one
    before only in the location's fragment, which is now [s]. *)
Theorem goTo_anchor (s : jsstring) (p : Page) :
  startsWith (lit "#") s = false ->
  goTo (lit "#" ++ s) p = goTo s p /\
  (forall el,
     getElementById s (doc p) = Some el ->
     (exists e, elements (doc p) !! el = Some e /\ el_id e = s) /\
     log (goTo s p) = log p ++ [EvScrollIntoView el b_smooth] /\
     activeElement (doc (goTo s p)) = Some el /\
     win (goTo s p) = win p) /\
  (getElementById s (doc p) = None ->
   goTo s p = with_win (with_location_fragment s (win p)) p).
Proof.
  intros Hs. pose proof (strip_hash_plain s Hs) as Hp. split; [|split].
  - unfold goTo, set_location_hash.
    by rewrite strip_hash_prefixed, Hp.
  - intros el Hel. split; [by apply getElementById_Some|].
    rewrite goTo_log, Hp, Hel. split; [done|].
    rewrite <- Hp in Hel. by destruct (goTo_found s p el Hel) as (? & _ & ?).
  - intros Hn. unfold goTo, set_location_hash. by rewrite Hp, Hn.
Qed.

Lemma goTo_anchor_witness :
  startsWith (lit "#") (lit "contact") = false /\
  goTo (lit "#contact") jane_page = goTo (lit "contact") jane_page /\
  activeElement (doc (goTo (lit "contact") jane_page)) = Some 13%nat /\
  goTo (lit "nonexistent") jane_page =
    with_win (with_location_fragment (lit "nonexistent") (win jane_page)) jane_page.
Proof.
  split; [reflexivity|].
  destruct (goTo_anchor (lit "contact") jane_page) as (He & Hf & _); [reflexivity|].
  destruct (Hf 13%nat) as (_ & _ & Ha & _); [reflexivity|].
  destruct (goTo_anchor (lit "nonexistent") jane_page) as (_ & _ & Hn);
    [reflexivity|].
  split; [exact He|]. split; [exact Ha|]. apply Hn. reflexivity.
Defined.

(** None of the section ids begins with "#", so the equivalence covers each. *)
Example section_ids_plain :
  Forall (fun s => startsWith (lit "#") s = false) section_ids.
Proof. by repeat constructor. Qed.

(** An id that itself begins with "#" is outside the equivalence: only one
    "#" is stripped. *)
Example goTo_double_hash :
  activeElement (doc (goTo (lit "#faq") jane_page)) = Some 11%nat /\
  activeElement (doc (goTo (lit "##faq") jane_page)) = None.
Proof. by vm_compute. Qed.

(** The reduced-motion observer: once registered, every [change] event
    brings the state cell to the media query's current value. *)
Lemma mql_change_observed p b :
  mql_listening (win p) = true -> prefersReduced (shown (mql_change b p)) = b.
Proof.
  intros H. unfold mql_change. rewrite commit_shown. simpl. by rewrite H.
Qed.

Lemma mount_listens w d :
  mql_listening (win (mount w d)) = mql_addEventListener w || mql_listening w.
Proof.
  unfold mount, commit, flush_effects, effect_reducedMotion. simpl.
  destruct (mql_addEventListener w); simpl; repeat case_decide; simpl;
    by rewrite ?orb_true_r.
Qed.

(** C4, at the failing input: the system preference turns to "reduce" after
    load, the observer brings [prefersReduced] to true and the root's
    scroll behaviour to "auto", and [goTo("#contact")] still asks for a
    smooth scroll, as it does for every id and every state. *)
Theorem goTo_is_smooth_under_reduced_motion :
  (let p := mql_change true
              (mount (site_window ∅ false) (site_document blank_form)) in
   prefersReduced (shown p) = true /\
   root_scrollBehavior (doc p) = lit "auto" /\
   log (goTo (lit "#contact") p) = log p ++ [EvScrollIntoView 13%nat b_smooth]) /\
  (forall id p el b,
     EvScrollIntoView el b ∈ log (goTo id p) ->
     EvScrollIntoView el b ∈ log p \/ b = b_smooth).
Proof.
  split; [by vm_compute|].
  intros id p el b. rewrite goTo_log, elem_of_app.
  intros [H|H]; [by left|right].
  destruct (getElementById _ _); [|by apply elem_of_nil in H].
  apply list_elem_of_singleton in H. congruence.
Qed.

(** ** Service cards *)

(** C9: every service card and every entry of the divider list resolves,
    through [serviceToId] and its "services" fallback, to one of the thirteen
    section ids of the page. *)
Theorem card_targets_are_sections :
  let anchors :=
    [ lit "home"; lit "about"; lit "services"; lit "gallery";
      lit "how-it-works"; lit "weddings"; lit "vow-renewals"; lit "naming";
      lit "celebration-of-life"; lit "your-funeral"; lit "faq"; lit "privacy";
      lit "contact" ] in
  section_ids = anchors /\
  Forall (fun title => card_target title ∈ anchors) card_titles /\
  Forall (fun label => divider_target label ∈ anchors) divider_labels /\
  (forall title, serviceToId !! title = None -> service_target title ∈ anchors) /\
  Forall (fun id => is_Some (getElementById id (site_document blank_form)))
         anchors.
Proof.
  cbv zeta. split; [reflexivity|].
  split; [apply (bool_decide_unpack _); by vm_compute|].
  split; [apply (bool_decide_unpack _); by vm_compute|].
  split.
  - intros title H. unfold service_target. rewrite H.
    apply (bool_decide_unpack _). by vm_compute.
  - repeat constructor; by eexists.
Qed.

Example card_and_divider_targets :
  map card_target card_titles =
    [ lit "weddings"; lit "weddings"; lit "weddings"; lit "naming";
      lit "vow-renewals"; lit "celebration-of-life" ] /\
  map divider_target divider_labels =
    [ lit "weddings"; lit "weddings"; lit "weddings"; lit "services";
      lit "vow-renewals"; lit "celebration-of-life" ].
Proof. by vm_compute. Qed.

(** ** Theme *)

Lemma mount_theme w d : theme (shown (mount w d)) = initTheme (Some w).
Proof.
  unfold mount. rewrite commit_shown.
  unfold effect_reducedMotion. by case_match.
Qed.

(** C6: the theme the page starts with is [dark] exactly when the storage
    slot [wcc-theme] holds "dark"; with the slot absent, or holding anything
    else, or with no window at all, it is [light]. *)
Theorem initTheme_reads_slot :
  (forall w : option Window,
     (initTheme w = dark <-> theme_slot w = Some (lit "dark")) /\
     (initTheme w = light <-> theme_slot w <> Some (lit "dark"))) /\
  (forall w d, theme (shown (mount w d)) = initTheme (Some w)) /\
  theme_key = lit "wcc-theme".
Proof.
  split; [|split; [|reflexivity]].
  - intros [w|]; unfold initTheme, theme_slot; simpl; [|by split; split].
    case_decide; split; split; try done; congruence.
  - apply mount_theme.
Qed.

Example initTheme_examples :
  initTheme (Some (site_window {[ theme_key := lit "dark" ]} false)) = dark /\
  initTheme (Some (site_window {[ theme_key := lit "light" ]} false)) = light /\
  initTheme (Some (site_window {[ theme_key := lit "Dark" ]} false)) = light /\
  initTheme (Some (site_window ∅ false)) = light /\
  initTheme None = light.
Proof. by vm_compute. Qed.

(** ** Renders and effects *)

Lemma frame_synced p q : handler_frame p q -> synced p -> synced q.
Proof.
  intros (Hs & Hd & Hl & Hb & Hr) (H1 & H2 & H3 & H4).
  unfold synced. by rewrite Hs, Hd, Hl, Hb, Hr.
Qed.

Lemma commit_settled p : synced p -> settled (commit p).
Proof.
  intros (Hd & Hl & Hb & Hr). unfold commit.
  case_decide as Hn; [by repeat split|].
  destruct p as [n s dp [els ae bo rs fm] [lf ls mm ma ml ht] lg].
  simpl in *. subst dp bo rs.
  unfold settled, synced, flush_effects, render, effect_theme, setItem,
    effect_scrollBehavior, cleanup_scrollBehavior, effect_overflow,
    cleanup_overflow; simpl.
  repeat case_decide; simpl in *;
    repeat split; try done; try congruence;
    solve [ by rewrite lookup_insert_eq | by rewrite Hl; congruence
          | by match goal with H : _ = _ |- _ => rewrite H end ].
Qed.

Lemma setTheme_frame v p : handler_frame p (setTheme v p).
Proof. by repeat split. Qed.

Lemma setMenuOpen_frame f p : handler_frame p (setMenuOpen f p).
Proof. by repeat split. Qed.

Lemma onChange_frame p : handler_frame p (onChange p).
Proof. by repeat split. Qed.

Lemma goTo_frame id p : handler_frame p (goTo id p) /\ next (goTo id p) = next p.
Proof.
  unfold goTo, focus. repeat case_match; by repeat split.
Qed.

Lemma onSubmit_frame p :
  handler_frame p (snd (onSubmit p)) /\
  menuOpen (next (snd (onSubmit p))) = menuOpen (next p) /\
  prefersReduced (next (snd (onSubmit p))) = prefersReduced (next p) /\
  theme (next (snd (onSubmit p))) = theme (next p).
Proof.
  destruct (honeypot p) eqn:Hh.
  - rewrite onSubmit_honeypot by done. by repeat split.
  - rewrite onSubmit_open by done. cbv zeta.
    destruct (compose_and_dispatch _ _) as [[a|e] p2] eqn:Hc.
    + apply compose_ok_inv in Hc as (n & c & t & d & m & ->). by repeat split.
    + apply compose_throw in Hc as ->. by repeat split.
Qed.

Lemma mount_settled w d : settled (mount w d).
Proof.
  unfold mount. apply commit_settled.
  unfold synced, effect_reducedMotion. case_match; simpl;
    repeat split; by rewrite ?lookup_insert_eq.
Qed.

Lemma step_settled p a : settled p -> settled (step p a).
Proof.
  intros [_ Hs]. destruct a; simpl;
    unfold click_theme_button, toggleMenu, click_menu_link, click_card,
      click_divider, mql_change, submit;
    apply commit_settled.
  - by eapply frame_synced; [apply setTheme_frame|].
  - by eapply frame_synced; [apply setTheme_frame|].
  - by eapply frame_synced; [apply setMenuOpen_frame|].
  - unfold NavLink_onClick. case_match; [|done].
    eapply frame_synced; [apply setMenuOpen_frame|].
    eapply frame_synced; [apply goTo_frame|]. done.
  - by eapply frame_synced; [apply goTo_frame|].
  - by eapply frame_synced; [apply goTo_frame|].
  - by eapply frame_synced; [apply goTo_frame|].
  - simpl. case_match.
    + eapply frame_synced; [apply onChange_frame|]. done.
    + done.
  - by eapply frame_synced; [apply onSubmit_frame|].
Qed.

Lemma run_settled p acts : settled p -> settled (run p acts).
Proof.
  revert p. induction acts as [|a acts IH]; intros p Hp; [done|].
  simpl. by apply IH, step_settled.
Qed.

(** On a page at rest, a reload starts with the rendered theme. *)
Lemma settled_reload p : settled p -> initTheme (Some (win p)) = theme (shown p).
Proof.
  intros (_ & _ & Hl & _). unfold initTheme. rewrite Hl.
  by destruct (theme (shown p)).
Qed.

(** C7 (amended): after any sequence of actions on a loaded page, a call
    [setTheme(v)], once the render it causes and that render's effects have
    run, leaves [v] in the storage slot [wcc-theme], so that a reload starts
    with [v].  When the call changes the theme, the write to storage comes
    after the render, as the effect of that render; when it does not, there
    is no render and the slot already holds [v]. *)
Theorem theme_persisted_by_effect w d acts v :
  let p := run (mount w d) acts in
  let p' := step p (CallSetTheme v) in
  theme (shown p') = v /\
  localStorage (win p') !! theme_key = Some (theme_str v) /\
  initTheme (Some (win p')) = v /\
  (forall d', theme (shown (reload p' d')) = v) /\
  (theme (shown p) <> v ->
   log p' = log p ++ [ EvRender (with_theme v (shown p));
                       EvSetItem theme_key (theme_str v) ]) /\
  (theme (shown p) = v -> p' = p).
Proof.
  intros p p'.
  assert (settled p) as Hp by apply run_settled, mount_settled.
  assert (settled p') as Hp' by by apply step_settled.
  assert (theme (shown p') = v) as Hv.
  { change (theme (shown (commit (setTheme v p))) = v).
    rewrite commit_shown. reflexivity. }
  split; [done|]. split; [|split; [|split; [|split]]].
  - destruct Hp' as (_ & _ & Hl & _). by rewrite Hl, Hv.
  - by rewrite settled_reload.
  - intros d'. unfold reload. by rewrite mount_theme, settled_reload.
  - clear Hp' Hv. subst p'. destruct Hp as (Hn & Hd & _).
    destruct p as [n s dp dc wn lg]. simpl in *. subst n dp.
    intros Hne. unfold commit, setTheme. simpl.
    rewrite decide_False by (intros Heq; apply Hne; by rewrite <- Heq).
    unfold flush_effects, render. simpl.
    destruct (decide (v = theme s)) as [->|_]; [done|]. simpl.
    destruct (decide (prefersReduced s = prefersReduced s)); [|done]. simpl.
    destruct (decide (menuOpen s = menuOpen s)); [|done]. simpl.
    by rewrite <- app_assoc.
  - clear Hp' Hv. subst p'. destruct Hp as (Hn & _).
    destruct p as [n [m r th st] dp dc wn lg]. simpl in *. subst n.
    intros <-. unfold commit, setTheme. simpl. by rewrite decide_True.
Qed.

(** C7, as stated, fails: after [setTheme("dark")] on a freshly loaded page
    the re-render shows the dark theme while the slot still holds "light", so
    a reload at that point starts light; the write is the second event of
    the commit, after the render. *)
Lemma theme_rendered_before_persisted :
  let p0 := mount (site_window ∅ false) (site_document blank_form) in
  let p1 := render (setTheme dark p0) in
  theme (shown p1) = dark /\
  localStorage (win p1) !! theme_key = Some (lit "light") /\
  initTheme (Some (win p1)) = light /\
  log (step p0 (CallSetTheme dark)) =
    log p0 ++ [ EvRender (with_theme dark (shown p0));
                EvSetItem (lit "wcc-theme") (lit "dark") ].
Proof. by vm_compute. Qed.

(** ** The mobile menu *)

Lemma toggleMenu_settled p :
  settled p ->
  toggleMenu p =
    let s := with_menuOpen (negb (menuOpen (shown p))) (shown p) in
    {| next := s; shown := s; deps := s;
       doc := with_body_overflow
                (if menuOpen s then lit "hidden" else lit "") (doc p);
       win := win p;
       log := log p ++ [EvRender s] |}.
Proof.
  intros (Hn & Hd & _).
  destruct p as [n [m r th st] dp dc wn lg]. simpl in *. subst n dp.
  unfold toggleMenu, commit, setMenuOpen, flush_effects, render.
  destruct m, r, th; reflexivity.
Qed.

(** C8: on a loaded page with the menu closed, the menu button opens the
    menu and sets the body's overflow to "hidden"; pressing it again closes
    the menu and puts the overflow back to what it was; a click on a link of
    the open menu (each is a "#" link, so it calls [goTo]) closes the menu
    and unlocks the scroll.  The toggle changes nothing else: the other state
    cells, the elements, the focus, the root's scroll behaviour, the form and
    the window are as before, and the log gains the render alone. *)
Theorem menu_locks_scroll w d acts :
  let p := run (mount w d) acts in
  menuOpen (shown p) = false ->
  let p1 := toggleMenu p in
  let p2 := toggleMenu p1 in
  (menuOpen (shown p1) = true /\ body_overflow (doc p1) = lit "hidden") /\
  (menuOpen (shown p2) = false /\ body_overflow (doc p2) = body_overflow (doc p)) /\
  (forall href,
     startsWith (lit "#") href = true ->
     let p3 := click_menu_link href p1 in
     menuOpen (shown p3) = false /\ body_overflow (doc p3) = lit "") /\
  Forall (fun l => startsWith (lit "#") l.2 = true) menu_links /\
  toggleMenu p =
    {| next := with_menuOpen true (shown p);
       shown := with_menuOpen true (shown p);
       deps := with_menuOpen true (shown p);
       doc := with_body_overflow (lit "hidden") (doc p);
       win := win p;
       log := log p ++ [EvRender (with_menuOpen true (shown p))] |}.
Proof.
  intros p Hm p1 p2.
  assert (settled p) as Hp by apply run_settled, mount_settled.
  assert (settled p1) as Hp1 by apply (step_settled p ClickMenuButton Hp).
  pose proof (toggleMenu_settled p Hp) as E1. rewrite Hm in E1. simpl in E1.
  pose proof (toggleMenu_settled p1 Hp1) as E2.
  fold p1 in E1. fold p2 in E2.
  assert (body_overflow (doc p) = lit "") as Hb.
  { destruct Hp as (_ & _ & _ & Hb & _). by rewrite Hb, Hm. }
  split; [by rewrite E1|]. split; [by rewrite E2, E1, Hb|].
  split; [|split; [by repeat constructor|exact E1]].
  intros href Hh p3.
  set (q := NavLink_onClick href (Some (setMenuOpen (fun _ => false))) p1).
  assert (q = setMenuOpen (fun _ => false) (goTo href (emit EvPreventDefault p1)))
    as Hq by (unfold q, NavLink_onClick; by rewrite Hh).
  assert (settled p3) as Hp3 by apply (step_settled p1 (ClickMenuLink href) Hp1).
  assert (menuOpen (shown p3) = false) as Hm3.
  { unfold p3, click_menu_link. fold q. by rewrite commit_shown, Hq. }
  split; [done|].
  destruct Hp3 as (_ & _ & _ & Hb3 & _). by rewrite Hb3, Hm3.
Qed.

Lemma menu_locks_scroll_witness :
  let p := run (mount (site_window ∅ false) (site_document blank_form))
               [ClickThemeButton; CallGoTo (lit "faq")] in
  menuOpen (shown p) = false /\
  body_overflow (doc (toggleMenu p)) = lit "hidden" /\
  body_overflow (doc (toggleMenu (toggleMenu p))) = lit "" /\
  menuOpen (shown (click_menu_link (lit "#contact") (toggleMenu p))) = false.
Proof.
  cbv zeta. split; [reflexivity|].
  destruct (menu_locks_scroll (site_window ∅ false) (site_document blank_form)
              [ClickThemeButton; CallGoTo (lit "faq")])
    as ((_ & H1) & (_ & H2) & H3 & _); [reflexivity|].
  split; [exact H1|]. split; [rewrite H2; reflexivity|].
  by apply H3.
Defined.

(** * Further properties *)

(** ** [encodeURIComponent], continued *)

(** X1: [encodeURIComponent] raises exactly on the strings that hold a lone
    surrogate. *)
Theorem encodeURIComponent_Some_iff s :
  is_Some (encodeURIComponent s) <-> well_formed s = true.
Proof.
  split; [|apply encodeURIComponent_total].
  remember (length s) as n eqn:Hn.
  revert s Hn. induction n as [n IH] using lt_wf_ind. intros s Hn.
  destruct s as [|c rest]; [done|]. simpl.
  destruct (uriUnescaped c) eqn:Hu.
  - destruct (uriUnescaped_not_surrogate c Hu) as [-> ->].
    intros H. apply (IH (length rest)); simpl in *; [lia|done|].
    by destruct (encodeURIComponent rest).
  - destruct (is_low_surrogate c); [by intros [? ?]|].
    destruct (is_high_surrogate c).
    + destruct rest as [|d rest']; [by intros [? ?]|].
      destruct (is_low_surrogate d); [|by intros [? ?]].
      intros H. apply (IH (length rest')); simpl in *; [lia|done|].
      by destruct (encodeURIComponent rest').
    + intros H. apply (IH (length rest)); simpl in *; [lia|done|].
      by destruct (encodeURIComponent rest).
Qed.

(** X2: a string of unreserved characters only is returned as it is. *)
Theorem encodeURIComponent_unreserved s :
  Forall (fun c => uriUnescaped c = true) s -> encodeURIComponent s = Some s.
Proof.
  induction 1 as [|c rest Hc _ IH]; [done|].
  simpl. by rewrite Hc, IH.
Qed.

Lemma encodeURIComponent_unreserved_witness :
  Forall (fun c => uriUnescaped c = true) (lit "O'Brien-Smith_(Jr.)") /\
  encodeURIComponent (lit "O'Brien-Smith_(Jr.)") = Some (lit "O'Brien-Smith_(Jr.)").
Proof.
  assert (Forall (fun c => uriUnescaped c = true) (lit "O'Brien-Smith_(Jr.)")) as H
    by (repeat constructor).
  split; [exact H|]. exact (encodeURIComponent_unreserved _ H).
Defined.

(** X3: encoding distributes over concatenation once the left part encodes:
    the encoding of [a ++ b] is that of [a] followed by that of [b], and it
    raises exactly when that of [b] does. *)
Theorem encodeURIComponent_app a a' b :
  encodeURIComponent a = Some a' ->
  encodeURIComponent (a ++ b) = app a' <$> encodeURIComponent b.
Proof.
  remember (length a) as n eqn:Hn.
  revert a a' Hn. induction n as [n IH] using lt_wf_ind. intros a a' Hn.
  destruct a as [|c rest].
  { intros [= <-]. simpl. by destruct (encodeURIComponent b). }
  simpl. destruct (uriUnescaped c).
  - destruct (encodeURIComponent rest) as [r|] eqn:Hr; [|done].
    intros [= <-]. rewrite (IH (length rest)) with (a' := r);
      simpl in *; [|lia|done|done].
    by destruct (encodeURIComponent b).
  - destruct (is_low_surrogate c); [done|].
    destruct (is_high_surrogate c).
    + destruct rest as [|d rest']; [done|]. simpl.
      destruct (is_low_surrogate d); [|done].
      destruct (encodeURIComponent rest') as [r|] eqn:Hr; [|done].
      intros [= <-]. rewrite (IH (length rest')) with (a' := r);
        simpl in *; [|lia|done|done].
      destruct (encodeURIComponent b); simpl; [|done].
      by rewrite <- app_assoc.
    + destruct (encodeURIComponent rest) as [r|] eqn:Hr; [|done].
      intros [= <-]. rewrite (IH (length rest)) with (a' := r);
        simpl in *; [|lia|done|done].
      destruct (encodeURIComponent b); simpl; [|done].
      by rewrite <- app_assoc.
Qed.

Lemma encodeURIComponent_app_witness :
  encodeURIComponent (lit "Legal ") = Some (lit "Legal%20") /\
  encodeURIComponent (lit "Legal " ++ [0xD83D]) = None /\
  encodeURIComponent (lit "Legal " ++ lit "Wedding") = Some (lit "Legal%20Wedding").
Proof.
  split; [reflexivity|]. split.
  - rewrite (encodeURIComponent_app (lit "Legal ") (lit "Legal%20")); reflexivity.
  - rewrite (encodeURIComponent_app (lit "Legal ") (lit "Legal%20")); reflexivity.
Defined.

Lemma lor_lt_256 a b : a < 256 -> b < 256 -> N.lor a b < 256.
Proof.
  intros Ha Hb. destruct (N.eq_dec (N.lor a b) 0) as [->|Hne]; [done|].
  change 256 with (2 ^ 8). apply N.log2_lt_pow2; [lia|].
  rewrite N.log2_lor. apply N.max_lub_lt.
  - destruct (N.eq_dec a 0) as [->|?]; [done|]. by apply N.log2_lt_pow2; [lia|].
  - destruct (N.eq_dec b 0) as [->|?]; [done|]. by apply N.log2_lt_pow2; [lia|].
Qed.

Lemma land_63_lt x : N.land x 0x3F < 256.
Proof.
  change 0x3F with (N.ones 6). rewrite N.land_ones.
  pose proof (N.mod_lt x (2 ^ 6)). change (2 ^ 6) with 64 in *. lia.
Qed.

Lemma shiftr_lt x k b :
  x < 2 ^ k * b -> N.shiftr x k < b.
Proof.
  intros H. rewrite N.shiftr_div_pow2. by apply N.Div0.div_lt_upper_bound.
Qed.

Lemma utf8_octets v : v < 0x110000 -> Forall (fun o => o < 256) (utf8 v).
Proof.
  intros Hv. unfold utf8.
  destruct (N.ltb_spec v 0x80); [repeat constructor; lia|].
  destruct (N.ltb_spec v 0x800).
  { repeat constructor; apply lor_lt_256; try done; try apply land_63_lt.
    eapply N.lt_trans; [apply (shiftr_lt v 6 32); simpl; lia|done]. }
  destruct (N.ltb_spec v 0x10000).
  { repeat constructor; apply lor_lt_256; try done; try apply land_63_lt.
    eapply N.lt_trans; [apply (shiftr_lt v 12 16); simpl; lia|done]. }
  repeat constructor; apply lor_lt_256; try done; try apply land_63_lt.
  eapply N.lt_trans; [apply (shiftr_lt v 18 8); simpl; lia|done].
Qed.

Lemma hex_digit_unreserved n : n < 16 -> uriUnescaped (hex_digit n) = true.
Proof.
  intros H. destruct n as [|q]; [reflexivity|].
  do 4 (destruct q as [q|q|]; try reflexivity; try (exfalso; lia)).
Qed.

Lemma pct_chars octet :
  octet < 256 -> Forall (fun c => uri_char c = true) (pct octet).
Proof.
  intros H. unfold pct, uri_char. repeat constructor.
  - rewrite hex_digit_unreserved; [done|]. by apply (shiftr_lt octet 4 16).
  - rewrite hex_digit_unreserved; [done|].
    change 0xF with (N.ones 4). rewrite N.land_ones.
    by apply N.mod_lt.
Qed.

Lemma pct_utf8_chars v :
  v < 0x110000 -> Forall (fun c => uri_char c = true) (pct_utf8 v).
Proof.
  intros H%utf8_octets. unfold pct_utf8. apply Forall_concat, Forall_fmap.
  eapply Forall_impl; [done|]. intros o. apply pct_chars.
Qed.

Lemma code_point_range c d :
  is_high_surrogate c = true -> is_low_surrogate d = true ->
  code_point c d < 0x110000.
Proof.
  unfold is_high_surrogate, is_low_surrogate, in_range, code_point.
  rewrite !andb_true_iff, !N.leb_le. lia.
Qed.

Lemma encodeURIComponent_chars s r :
  sixteen_bit s ->
  encodeURIComponent s = Some r ->
  Forall (fun c => uri_char c = true) r.
Proof.
  remember (length s) as n eqn:Hn.
  revert s r Hn. induction n as [n IH] using lt_wf_ind. intros s r Hn Hs.
  destruct s as [|c rest]; [by intros [= <-]|].
  apply Forall_cons in Hs as [Hc Hs]. simpl.
  destruct (uriUnescaped c) eqn:Hu.
  - destruct (encodeURIComponent rest) as [r'|] eqn:Hr; [|done].
    intros [= <-]. constructor; [unfold uri_char; by rewrite Hu|].
    eapply (IH (length rest)); simpl in *; [lia|done|done|done].
  - destruct (is_low_surrogate c); [done|].
    destruct (is_high_surrogate c) eqn:Hh.
    + destruct rest as [|d rest']; [done|].
      apply Forall_cons in Hs as [Hd Hs].
      destruct (is_low_surrogate d) eqn:Hl; [|done].
      destruct (encodeURIComponent rest') as [r'|] eqn:Hr; [|done].
      intros [= <-]. apply Forall_app. split.
      * by apply pct_utf8_chars, code_point_range.
      * eapply (IH (length rest')); simpl in *; [lia|done|done|done].
    + destruct (encodeURIComponent rest) as [r'|] eqn:Hr; [|done].
      intros [= <-]. apply Forall_app. split.
      * apply pct_utf8_chars. lia.
      * eapply (IH (length rest)); simpl in *; [lia|done|done|done].
Qed.

(** X4: over 16-bit code units, whatever [encodeURIComponent] returns is
    made of unreserved characters and "%" only. *)
Theorem encodeURIComponent_alphabet s r :
  sixteen_bit s ->
  encodeURIComponent s = Some r ->
  Forall (fun c => uri_char c = true) r.
Proof. apply encodeURIComponent_chars. Qed.

Lemma encodeURIComponent_alphabet_witness :
  sixteen_bit (lit "a&cc=x@y.ie" ++ [10; 0x20AC]) /\
  encodeURIComponent (lit "a&cc=x@y.ie" ++ [10; 0x20AC])
    = Some (lit "a%26cc%3Dx%40y.ie%0A%E2%82%AC") /\
  Forall (fun c => uri_char c = true) (lit "a%26cc%3Dx%40y.ie%0A%E2%82%AC").
Proof.
  assert (sixteen_bit (lit "a&cc=x@y.ie" ++ [10; 0x20AC])) as H
    by (repeat constructor).
  split; [exact H|]. split; [reflexivity|].
  exact (encodeURIComponent_alphabet _ _ H eq_refl).
Defined.

(** ** The contact form, continued *)

Lemma field_sixteen_bit f name :
  form_sixteen_bit f ->
  sixteen_bit (String_or_empty (FormData_get name (new_FormData f))).
Proof.
  intros Hf. unfold String_or_empty.
  destruct (FormData_get name (new_FormData f)) as [[s|]|] eqn:Hg;
    [|repeat constructor|constructor].
  apply FormData_get_elem in Hg. unfold new_FormData in Hg.
  apply list_elem_of_omap in Hg as (c & Hc & Hv).
  eapply Forall_forall in Hf; [|done].
  destruct (c_value c) as [[s'|]|]; simplify_eq/=. done.
Qed.

Lemma compose_ok_inv_enc data p a p2 :
  compose_and_dispatch data p = (Ok a, p2) ->
  exists n c t d m,
    encodeURIComponent (String_or_empty (FormData_get (lit "name") data)) = Some n /\
    encodeURIComponent (String_or_empty (FormData_get (lit "contact") data)) = Some c /\
    encodeURIComponent (String_or_empty (FormData_get (lit "type") data)) = Some t /\
    encodeURIComponent (String_or_empty (FormData_get (lit "date") data)) = Some d /\
    encodeURIComponent (String_or_empty (FormData_get (lit "message") data)) = Some m /\
    p2 = form_reset (setStatus ok (emit (EvNavigate (mail_link n c t d m)) p)).
Proof.
  unfold compose_and_dispatch, encode, set_location_href. unfold_M.
  destruct (encodeURIComponent (String_or_empty (FormData_get (lit "name") data)))
    as [n|]; [|done].
  destruct (encodeURIComponent (String_or_empty (FormData_get (lit "contact") data)))
    as [c|]; [|done].
  destruct (encodeURIComponent (String_or_empty (FormData_get (lit "type") data)))
    as [t|]; [|done].
  destruct (encodeURIComponent (String_or_empty (FormData_get (lit "date") data)))
    as [d|]; [|done].
  destruct (encodeURIComponent (String_or_empty (FormData_get (lit "message") data)))
    as [m|]; [|done].
  destruct (href_throws _ _); [done|].
  intros [= _ <-]. by exists n, c, t, d, m.
Qed.

(** The three ways the handler can end. *)
Lemma onSubmit_cases p :
  (honeypot p = true /\ onSubmit p = (Ok tt, emit EvPreventDefault p)) \/
  (honeypot p = false /\
   exists n c t d m,
     encodeURIComponent (field "name" p) = Some n /\
     encodeURIComponent (field "contact" p) = Some c /\
     encodeURIComponent (field "type" p) = Some t /\
     encodeURIComponent (field "date" p) = Some d /\
     encodeURIComponent (field "message" p) = Some m /\
     onSubmit p =
       (Ok tt, form_reset (setStatus ok (emit (EvNavigate (mail_link n c t d m))
                             (setStatus sending (emit EvPreventDefault p)))))) \/
  (honeypot p = false /\
   onSubmit p =
     (Ok tt, setStatus error (setStatus sending (emit EvPreventDefault p)))).
Proof.
  destruct (honeypot p) eqn:Hh; [left; split; [done|by apply onSubmit_honeypot]|].
  right. rewrite onSubmit_open by done. cbv zeta.
  destruct (compose_and_dispatch _ _) as [[a|e] p2] eqn:Hc.
  - left. split; [done|].
    apply compose_ok_inv_enc in Hc as (n & c & t & d & m & ? & ? & ? & ? & ? & ->).
    by exists n, c, t, d, m.
  - right. split; [done|]. by apply compose_throw in Hc as ->.
Qed.

Lemma added_app p q l : log q = log p ++ l -> added p q = l.
Proof. unfold added. intros ->. apply drop_app_length. Qed.

Lemma count_occ_uri_chars r c :
  Forall (fun x => uri_char x = true) r -> uri_char c = false ->
  count_occ N.eq_dec r c = 0%nat.
Proof.
  intros Hr Hc. apply count_occ_not_In. intros Hin%list_elem_of_In.
  eapply Forall_forall in Hr; [|done]. congruence.
Qed.

Lemma count_occ_mail_link n c t d m x :
  Forall (fun x => uri_char x = true) n ->
  Forall (fun x => uri_char x = true) c ->
  Forall (fun x => uri_char x = true) t ->
  Forall (fun x => uri_char x = true) d ->
  Forall (fun x => uri_char x = true) m ->
  uri_char x = false ->
  count_occ N.eq_dec (mail_link n c t d m) x =
  count_occ N.eq_dec (mail_link [] [] [] [] []) x.
Proof.
  intros Hn Hc Ht Hd Hm Hx. unfold mail_link.
  rewrite !count_occ_app.
  rewrite (count_occ_uri_chars n x), (count_occ_uri_chars c x),
    (count_occ_uri_chars t x), (count_occ_uri_chars d x),
    (count_occ_uri_chars m x) by done.
  change (count_occ N.eq_dec [] x) with 0%nat. lia.
Qed.

(** X5: field values cannot reshape the mail link.  Whatever the form holds
    (over 16-bit code units), a link the handler dispatches begins with the
    fixed address and subject prefix, holds exactly one "?" and one "&" (the
    one before [body=]), and holds no "#", line feed or carriage return. *)
Theorem mail_link_not_injectable p url :
  form_sixteen_bit (form (doc p)) ->
  url ∈ navigations (added p (snd (onSubmit p))) ->
  startsWith (lit "mailto:westcoastcelebrants@gmail.com?subject=Enquiry from ")
    url = true /\
  count_occ N.eq_dec url 63 = 1%nat /\
  count_occ N.eq_dec url 38 = 1%nat /\
  count_occ N.eq_dec url 35 = 0%nat /\
  count_occ N.eq_dec url 10 = 0%nat /\
  count_occ N.eq_dec url 13 = 0%nat.
Proof.
  intros Hf.
  destruct (onSubmit_cases p) as [[_ ->]|[(_ & n & c & t & d & m & Hn & Hc & Ht & Hd & Hm & ->)|[_ ->]]].
  - rewrite (added_app p _ [EvPreventDefault]) by done.
    intros H. by apply elem_of_nil in H.
  - rewrite (added_app p _ [EvPreventDefault; EvSetStatus sending;
               EvNavigate (mail_link n c t d m); EvSetStatus ok; EvFormReset])
      by (simpl; by rewrite <- !app_assoc).
    intros ->%list_elem_of_singleton.
    apply encodeURIComponent_chars in Hn, Hc, Ht, Hd, Hm;
      try by apply field_sixteen_bit.
    split; [reflexivity|].
    repeat split; (rewrite count_occ_mail_link; [reflexivity|done..|reflexivity]).
  - rewrite (added_app p _ [EvPreventDefault; EvSetStatus sending; EvSetStatus error])
      by (simpl; by rewrite <- !app_assoc).
    intros H. by apply elem_of_nil in H.
Qed.

Lemma mail_link_not_injectable_witness :
  let url := lit "mailto:westcoastcelebrants@gmail.com?subject=Enquiry from Eve%26cc%3Dall%40example.com&body=Contact: eve%40example.com%3Fx%0AType: Vow%20Renewal%0ADate: %0A%0AHi%0D%0A%23there" in
  navigations (added injecting_page (snd (onSubmit injecting_page))) = [url] /\
  count_occ N.eq_dec url 38 = 1%nat /\
  count_occ N.eq_dec url 10 = 0%nat.
Proof.
  cbv zeta. split; [reflexivity|].
  destruct (mail_link_not_injectable injecting_page
    (lit "mailto:westcoastcelebrants@gmail.com?subject=Enquiry from Eve%26cc%3Dall%40example.com&body=Contact: eve%40example.com%3Fx%0AType: Vow%20Renewal%0ADate: %0A%0AHi%0D%0A%23there"))
    as (_ & _ & H38 & _ & H10 & _).
  - repeat constructor.
  - apply (bool_decide_unpack _). by vm_compute.
  - split; [exact H38|exact H10].
Defined.

(** X6: what one run of the handler can add to the log: nothing but the
    [preventDefault] (honeypot), or [sending] then [ok] with exactly one
    navigation, or [sending] then [error] with none.  So there is never more
    than one navigation, and the status ends [ok] exactly when one was made. *)
Theorem onSubmit_log_shapes p :
  let l := added p (snd (onSubmit p)) in
  (honeypot p = true /\ status_changes l = [] /\ navigations l = []) \/
  (honeypot p = false /\ status_changes l = [sending; ok] /\
   exists url, navigations l = [url]) \/
  (honeypot p = false /\ status_changes l = [sending; error] /\
   navigations l = []).
Proof.
  destruct (onSubmit_cases p) as [[Hh ->]|[(Hh & n & c & t & d & m & _ & _ & _ & _ & _ & ->)|[Hh ->]]];
    cbv zeta.
  - left. by rewrite (added_app p _ [EvPreventDefault]).
  - right; left.
    rewrite (added_app p _ [EvPreventDefault; EvSetStatus sending;
               EvNavigate (mail_link n c t d m); EvSetStatus ok; EvFormReset])
      by (simpl; by rewrite <- !app_assoc).
    split; [done|]. split; [done|]. by eexists.
  - right; right.
    rewrite (added_app p _ [EvPreventDefault; EvSetStatus sending; EvSetStatus error])
      by (simpl; by rewrite <- !app_assoc).
    done.
Qed.

(** ** Any sequence of actions *)

Lemma navigations_snoc l e :
  navigations (l ++ [e]) =
  navigations l ++ match e with EvNavigate url => [url] | _ => [] end.
Proof. unfold navigations. rewrite omap_app. by destruct e. Qed.

(** What a commit never touches. *)
Lemma commit_frame p :
  elements (doc (commit p)) = elements (doc p) /\
  activeElement (doc (commit p)) = activeElement (doc p) /\
  form (doc (commit p)) = form (doc p) /\
  location_fragment (win (commit p)) = location_fragment (win p) /\
  mql_matches (win (commit p)) = mql_matches (win p) /\
  mql_addEventListener (win (commit p)) = mql_addEventListener (win p) /\
  mql_listening (win (commit p)) = mql_listening (win p) /\
  href_throws (win (commit p)) = href_throws (win p) /\
  (forall k, k <> theme_key ->
     localStorage (win (commit p)) !! k = localStorage (win p) !! k) /\
  navigations (log (commit p)) = navigations (log p).
Proof.
  unfold commit, flush_effects, render, effect_theme, setItem,
    effect_scrollBehavior, cleanup_scrollBehavior, effect_overflow,
    cleanup_overflow.
  repeat case_decide; simpl; repeat split; try done;
    try (intros k Hk; by rewrite lookup_insert_ne);
    by rewrite ?navigations_snoc, ?app_nil_r.
Qed.

Lemma goTo_win id p :
  localStorage (win (goTo id p)) = localStorage (win p) /\
  mql_matches (win (goTo id p)) = mql_matches (win p) /\
  mql_addEventListener (win (goTo id p)) = mql_addEventListener (win p) /\
  mql_listening (win (goTo id p)) = mql_listening (win p) /\
  href_throws (win (goTo id p)) = href_throws (win p) /\
  navigations (log (goTo id p)) = navigations (log p).
Proof.
  rewrite goTo_log. unfold goTo, focus.
  repeat case_match; simpl; repeat split; try done;
    by rewrite ?navigations_snoc, ?app_nil_r.
Qed.

Lemma onSubmit_win p : win (snd (onSubmit p)) = win p.
Proof.
  by destruct (onSubmit_cases p)
    as [[_ ->]|[(_ & n & c & t & d & m & _ & _ & _ & _ & _ & ->)|[_ ->]]].
Qed.

Lemma onSubmit_elements p :
  elements (doc (snd (onSubmit p))) = elements (doc p) /\
  activeElement (doc (snd (onSubmit p))) = activeElement (doc p).
Proof.
  by destruct (onSubmit_cases p)
    as [[_ ->]|[(_ & n & c & t & d & m & _ & _ & _ & _ & _ & ->)|[_ ->]]].
Qed.

Lemma with_status_same r : with_status (status r) r = r.
Proof. by destruct r. Qed.

(** The handler touches the status cell alone, and leaves it as it was
    (honeypot) or at [ok] or [error]. *)
Lemma onSubmit_next p :
  next (snd (onSubmit p)) =
    with_status (status (next (snd (onSubmit p)))) (next p) /\
  (honeypot p = true /\ status (next (snd (onSubmit p))) = status (next p) \/
   honeypot p = false /\ status (next (snd (onSubmit p))) = ok \/
   honeypot p = false /\ status (next (snd (onSubmit p))) = error).
Proof.
  destruct (onSubmit_cases p)
    as [[Hh ->]|[(Hh & n & c & t & d & m & _ & _ & _ & _ & _ & ->)|[Hh ->]]];
    simpl.
  - rewrite with_status_same. by split; [|left].
  - by split; [|right; left].
  - by split; [|right; right].
Qed.

(** The theme the button switches to. *)
Lemma step_shown p a :
  settled p ->
  shown (step p a) =
    match a with
    | ClickThemeButton =>
      with_theme (if decide (theme (shown p) = dark) then light else dark) (shown p)
    | CallSetTheme v => with_theme v (shown p)
    | ClickMenuButton => with_menuOpen (negb (menuOpen (shown p))) (shown p)
    | ClickMenuLink href =>
      if startsWith (lit "#") href then with_menuOpen false (shown p) else shown p
    | CallGoTo _ | ClickCard _ | ClickDivider _ => shown p
    | MediaChange b =>
      if mql_listening (win p) then with_prefersReduced b (shown p) else shown p
    | SubmitForm => with_status (status (next (snd (onSubmit p)))) (shown p)
    end.
Proof.
  intros [Hn _]. destruct a; cbv beta iota delta [step];
    unfold click_theme_button, toggleMenu, click_menu_link, click_card,
      click_divider, mql_change, submit;
    rewrite commit_shown.
  - simpl. by rewrite Hn.
  - simpl. by rewrite Hn.
  - simpl. by rewrite Hn.
  - unfold NavLink_onClick. case_match; [|by rewrite Hn]. simpl.
    rewrite (proj2 (goTo_frame _ _)). simpl. by rewrite Hn.
  - by rewrite (proj2 (goTo_frame _ _)), Hn.
  - by rewrite (proj2 (goTo_frame _ _)), Hn.
  - by rewrite (proj2 (goTo_frame _ _)), Hn.
  - simpl. case_match; simpl; by rewrite ?Hn.
  - rewrite (proj1 (onSubmit_next p)). by rewrite Hn.
Qed.

Lemma commit_after_handler p q m :
  mql_addEventListener (win q) = mql_addEventListener (win p) ->
  mql_listening (win q) = mql_listening (win p) ->
  href_throws (win q) = href_throws (win p) ->
  mql_matches (win q) = m ->
  localStorage (win q) = localStorage (win p) ->
  mql_addEventListener (win (commit q)) = mql_addEventListener (win p) /\
  mql_listening (win (commit q)) = mql_listening (win p) /\
  href_throws (win (commit q)) = href_throws (win p) /\
  mql_matches (win (commit q)) = m /\
  (forall k, k <> theme_key ->
     localStorage (win (commit q)) !! k = localStorage (win p) !! k).
Proof.
  intros H1 H2 H3 H4 H5.
  destruct (commit_frame q) as (_ & _ & _ & _ & -> & -> & -> & -> & Hk & _).
  repeat split; try done. intros k Hne. by rewrite Hk, H5.
Qed.

(** What no action touches in the window, and what a media change sets. *)
Lemma step_win p a :
  mql_addEventListener (win (step p a)) = mql_addEventListener (win p) /\
  mql_listening (win (step p a)) = mql_listening (win p) /\
  href_throws (win (step p a)) = href_throws (win p) /\
  mql_matches (win (step p a)) =
    match a with MediaChange b => b | _ => mql_matches (win p) end /\
  (forall k, k <> theme_key ->
     localStorage (win (step p a)) !! k = localStorage (win p) !! k).
Proof.
  destruct a; cbv beta iota delta [step];
    unfold click_theme_button, toggleMenu, click_menu_link, click_card,
      click_divider, mql_change, submit;
    apply commit_after_handler; try done.
  all: try (unfold NavLink_onClick; case_match; [simpl|done]).
  all: try (by destruct (goTo_win href (emit EvPreventDefault p))
              as (? & ? & ? & ? & ? & _)).
  all: try (by destruct (goTo_win id p) as (? & ? & ? & ? & ? & _)).
  all: try (by destruct (goTo_win (lit "#" ++ card_target title) p)
              as (? & ? & ? & ? & ? & _)).
  all: try (by destruct (goTo_win (lit "#" ++ divider_target label) p)
              as (? & ? & ? & ? & ? & _)).
  all: try (by case_match).
  all: try (by rewrite onSubmit_win).
  all: done.
Qed.

Lemma mount_frame w d :
  mql_matches (win (mount w d)) = mql_matches w /\
  mql_addEventListener (win (mount w d)) = mql_addEventListener w /\
  href_throws (win (mount w d)) = href_throws w /\
  prefersReduced (shown (mount w d)) = mql_matches w /\
  menuOpen (shown (mount w d)) = false /\
  status (shown (mount w d)) = idle /\
  elements (doc (mount w d)) = elements d /\
  form (doc (mount w d)) = form d /\
  (forall k, k <> theme_key ->
     localStorage (win (mount w d)) !! k = localStorage w !! k).
Proof.
  unfold mount. rewrite commit_shown.
  match goal with |- context [commit ?q] =>
    destruct (commit_frame q) as (-> & _ & -> & _ & -> & -> & _ & -> & Hk & _)
  end.
  unfold effect_reducedMotion in *. simpl in *.
  destruct (mql_addEventListener w) eqn:Ha; simpl in *; repeat split;
    try done;
    intros k Hne; rewrite (Hk k Hne); by rewrite lookup_insert_ne.
Qed.

Lemma run_snoc p acts a : run p (acts ++ [a]) = step (run p acts) a.
Proof. unfold run. by rewrite foldl_app. Qed.

Lemma run_preference p acts :
  mql_matches (win (run p acts)) = last_preference (mql_matches (win p)) acts.
Proof.
  revert p. induction acts as [|a acts IH]; intros p; [done|]. simpl.
  rewrite IH. destruct (step_win p a) as (_ & _ & _ & -> & _). by destruct a.
Qed.

(** X7: where the media query list can be listened to, the reduced-motion
    cell follows the system preference through any sequence of actions: at
    rest it equals the preference last announced, and the root's scroll
    behaviour is "auto" exactly when motion is to be reduced. *)
Theorem reduced_motion_follows_preference w d acts :
  mql_addEventListener w = true ->
  let p := run (mount w d) acts in
  mql_matches (win p) = last_preference (mql_matches w) acts /\
  prefersReduced (shown p) = mql_matches (win p) /\
  root_scrollBehavior (doc p) =
    (if mql_matches (win p) then lit "auto" else lit "smooth").
Proof.
  intros Ha p.
  assert (settled p) as Hp by apply run_settled, mount_settled.
  assert (mql_matches (win p) = last_preference (mql_matches w) acts) as Hm.
  { unfold p. rewrite run_preference. by rewrite (proj1 (mount_frame w d)). }
  assert (mql_listening (win p) = true /\
          prefersReduced (shown p) = mql_matches (win p)) as [_ Hr].
  { unfold p. clear Hp Hm p.
    induction acts as [|a acts IH] using rev_ind.
    - simpl. rewrite mount_listens, Ha.
      by destruct (mount_frame w d) as (-> & _ & _ & -> & _).
    - rewrite run_snoc. destruct IH as [Hl Hr].
      assert (settled (run (mount w d) acts)) as Hs
        by apply run_settled, mount_settled.
      rewrite (step_shown _ a Hs).
      destruct (step_win (run (mount w d) acts) a) as (_ & -> & _ & -> & _).
      split; [done|]. rewrite Hl. by destruct a; try case_match. }
  split; [done|]. split; [done|].
  destruct Hp as (_ & _ & _ & _ & ->). by rewrite Hr.
Qed.

Lemma reduced_motion_follows_preference_witness :
  let p := run (mount (site_window ∅ false) (site_document blank_form))
             [MediaChange true; ClickMenuButton; MediaChange false;
              MediaChange true; SubmitForm] in
  prefersReduced (shown p) = true /\
  root_scrollBehavior (doc p) = lit "auto".
Proof.
  cbv zeta.
  destruct (reduced_motion_follows_preference
              (site_window ∅ false) (site_document blank_form)
              [MediaChange true; ClickMenuButton; MediaChange false;
               MediaChange true; SubmitForm] eq_refl) as (Hm & Hr & Hb).
  split; [by rewrite Hr, Hm|by rewrite Hb, Hm].
Defined.

(** X8: where the media query list has no [addEventListener], nothing is
    registered and later changes of the preference go unseen: the cell keeps
    the value read at load. *)
Theorem reduced_motion_frozen_without_listener w d acts :
  mql_addEventListener w = false ->
  mql_listening w = false ->
  let p := run (mount w d) acts in
  mql_listening (win p) = false /\
  prefersReduced (shown p) = mql_matches w.
Proof.
  intros Ha Hl.
  induction acts as [|a acts IH] using rev_ind; cbv zeta.
  - simpl. rewrite mount_listens, Ha, Hl.
    by destruct (mount_frame w d) as (_ & _ & _ & -> & _).
  - rewrite run_snoc. destruct IH as [Hl' Hr].
    assert (settled (run (mount w d) acts)) as Hs
      by apply run_settled, mount_settled.
    rewrite (step_shown _ a Hs).
    destruct (step_win (run (mount w d) acts) a) as (_ & -> & _).
    split; [done|]. rewrite Hl'. by destruct a; try case_match.
Qed.

Lemma reduced_motion_frozen_without_listener_witness :
  let w := {| location_fragment := lit ""; localStorage := ∅;
              mql_matches := false; mql_addEventListener := false;
              mql_listening := false; href_throws := fun _ => false |} in
  prefersReduced
    (shown (run (mount w (site_document blank_form)) [MediaChange true])) = false.
Proof.
  cbv zeta.
  exact (proj2 (reduced_motion_frozen_without_listener
    {| location_fragment := lit ""; localStorage := ∅;
       mql_matches := false; mql_addEventListener := false;
       mql_listening := false; href_throws := fun _ => false |}
    (site_document blank_form) [MediaChange true] eq_refl eq_refl)).
Defined.

Lemma run_app p acts more : run p (acts ++ more) = run (run p acts) more.
Proof. unfold run. by rewrite foldl_app. Qed.

Lemma run_storage p acts k :
  k <> theme_key ->
  localStorage (win (run p acts)) !! k = localStorage (win p) !! k.
Proof.
  intros Hk. revert p. induction acts as [|a acts IH]; intros p; [done|].
  simpl. rewrite IH. by destruct (step_win p a) as (_ & _ & _ & _ & ->).
Qed.

(** The status after one action, given the one before. *)
Lemma step_status p a :
  settled p ->
  status (shown (step p a)) = status (shown p) \/
  a = SubmitForm /\ status (shown (step p a)) = ok \/
  a = SubmitForm /\ status (shown (step p a)) = error.
Proof.
  intros Hs. rewrite (step_shown p a Hs).
  destruct a; try (by left); try (left; by case_match).
  destruct Hs as [Hn _].
  destruct (onSubmit_next p) as [_ [[_ H]|[[_ H]|[_ H]]]]; simpl; rewrite H.
  - left. by rewrite Hn.
  - right; by left.
  - right; by right.
Qed.

(** X9: through any sequence of actions the storage slot [wcc-theme] holds
    the theme the page shows, so a reload starts with that theme; loading
    writes the slot even if it held something else, and no other key of the
    storage is ever touched. *)
Theorem theme_slot_follows_theme w d acts :
  let p := run (mount w d) acts in
  localStorage (win p) !! theme_key = Some (theme_str (theme (shown p))) /\
  (forall d', theme (shown (reload p d')) = theme (shown p)) /\
  (forall k, k <> theme_key -> localStorage (win p) !! k = localStorage w !! k).
Proof.
  intros p.
  assert (settled p) as Hp by apply run_settled, mount_settled.
  split; [by destruct Hp as (_ & _ & ? & _)|]. split.
  - intros d'. unfold reload. by rewrite mount_theme, settled_reload.
  - intros k Hk. unfold p. rewrite run_storage by done.
    by apply mount_frame.
Qed.

(** X10: the theme button flips the theme, and two presses bring back the
    state cells and the stored theme. *)
Theorem theme_button_flips w d acts :
  let p := run (mount w d) acts in
  let p1 := step p ClickThemeButton in
  let p2 := step p1 ClickThemeButton in
  theme (shown p1) <> theme (shown p) /\
  shown p2 = shown p /\
  localStorage (win p2) !! theme_key = localStorage (win p) !! theme_key.
Proof.
  intros p p1 p2.
  assert (settled p) as Hp by apply run_settled, mount_settled.
  assert (settled p1) as Hp1 by by apply step_settled.
  assert (settled p2) as Hp2 by by apply step_settled.
  assert (shown p1 =
          with_theme (if decide (theme (shown p) = dark) then light else dark)
            (shown p)) as E1 by apply (step_shown p ClickThemeButton Hp).
  assert (shown p2 = shown p) as E2.
  { unfold p2. rewrite (step_shown p1 ClickThemeButton Hp1), E1.
    by destruct (shown p) as [m r [] st]. }
  split; [rewrite E1; by destruct (shown p) as [m r [] st]|]. split; [done|].
  destruct Hp as (_ & _ & -> & _). destruct Hp2 as (_ & _ & -> & _).
  by rewrite E2.
Qed.

(** X11: each state cell has its own actions.  Only the theme button and
    [setTheme] change the theme, only the menu button and the menu's links
    change [menuOpen], only a media change changes [prefersReduced], and only
    a submission changes the form's status. *)
Theorem state_cells_independent w d acts a :
  let p := run (mount w d) acts in
  let q := step p a in
  (theme (shown q) <> theme (shown p) ->
   a = ClickThemeButton \/ exists v, a = CallSetTheme v) /\
  (menuOpen (shown q) <> menuOpen (shown p) ->
   a = ClickMenuButton \/ exists href, a = ClickMenuLink href) /\
  (prefersReduced (shown q) <> prefersReduced (shown p) ->
   exists b, a = MediaChange b) /\
  (status (shown q) <> status (shown p) -> a = SubmitForm).
Proof.
  intros p q.
  assert (settled p) as Hp by apply run_settled, mount_settled.
  unfold q. rewrite (step_shown p a Hp).
  destruct a; repeat split; intros H; eauto;
    try (exfalso; apply H; by repeat case_match).
Qed.

(** X12: through any sequence of actions, at rest the body's overflow is
    "hidden" when the menu is open and empty when it is closed. *)
Theorem scroll_locked_iff_menu_open w d acts :
  let p := run (mount w d) acts in
  body_overflow (doc p) = (if menuOpen (shown p) then lit "hidden" else lit "").
Proof.
  intros p.
  assert (settled p) as Hp by apply run_settled, mount_settled.
  by destruct Hp as (_ & _ & _ & ? & _).
Qed.

Lemma run_status_not_sending w d acts :
  status (shown (run (mount w d) acts)) <> sending.
Proof.
  induction acts as [|a acts IH] using rev_ind.
  - simpl. by destruct (mount_frame w d) as (_ & _ & _ & _ & _ & -> & _).
  - rewrite run_snoc.
    assert (settled (run (mount w d) acts)) as Hs
      by apply run_settled, mount_settled.
    destruct (step_status _ a Hs) as [->|[[_ ->]|[_ ->]]]; done.
Qed.

(** X13: the status [sending] is never rendered.  The handler leaves it
    behind before it returns, so at rest the status is [idle], [ok] or
    [error], the submit button is enabled and reads "Send enquiry". *)
Theorem sending_never_rendered w d acts :
  let p := run (mount w d) acts in
  status (shown p) <> sending /\ button_disabled (status (shown p)) = false.
Proof.
  cbv zeta. pose proof (run_status_not_sending w d acts) as H.
  split; [done|]. unfold button_disabled. by rewrite bool_decide_eq_false.
Qed.

(** X14: once the status has left [idle] it never returns to it: whatever
    follows, one of the two status lines stays under the form. *)
Theorem status_never_returns_to_idle w d acts more :
  let p := run (mount w d) acts in
  status (shown p) <> idle ->
  status (shown (run p more)) <> idle /\
  is_Some (status_message (status (shown (run p more)))).
Proof.
  intros p Hi.
  assert (status (shown (run p more)) <> idle) as H.
  { induction more as [|a more IH] using rev_ind; [done|].
    rewrite run_snoc.
    assert (settled (run p more)) as Hs.
    { unfold p. rewrite <- run_app. apply run_settled, mount_settled. }
    destruct (step_status _ a Hs) as [->|[[_ ->]|[_ ->]]]; done. }
  split; [done|].
  pose proof (run_status_not_sending w d (acts ++ more)) as Hs.
  rewrite run_app in Hs. fold p in Hs.
  destruct (status (shown (run p more))); try done; by eexists.
Qed.

Lemma status_never_returns_to_idle_witness :
  let p := run jane_page [SubmitForm] in
  status (shown p) <> idle /\
  status (shown (run p [ClickThemeButton; SubmitForm; ClickMenuButton])) <> idle.
Proof.
  cbv zeta. split; [done|].
  apply (status_never_returns_to_idle
           (site_window ∅ false) (site_document jane_form) [SubmitForm]
           [ClickThemeButton; SubmitForm; ClickMenuButton]).
  done.
Defined.

(** ** Elements and focus *)

Lemma alter_tabindex_ids v i (l : list Element) :
  el_id <$> alter (fun e => {| el_id := el_id e; el_tabindex := Some v |}) i l
  = el_id <$> l.
Proof.
  revert i. induction l as [|e l IH]; intros [|i]; simpl; try done.
  f_equal. apply IH.
Qed.

Lemma goTo_ids id p :
  el_id <$> elements (doc (goTo id p)) = el_id <$> elements (doc p).
Proof.
  unfold goTo, focus. repeat case_match; simpl; try done;
    apply alter_tabindex_ids.
Qed.

Lemma step_ids p a :
  el_id <$> elements (doc (step p a)) = el_id <$> elements (doc p).
Proof.
  destruct a; cbv beta iota delta [step];
    unfold click_theme_button, toggleMenu, click_menu_link, click_card,
      click_divider, mql_change, submit;
    rewrite (proj1 (commit_frame _)); try done.
  - unfold NavLink_onClick. case_match; [|done]. simpl. by rewrite goTo_ids.
  - apply goTo_ids.
  - apply goTo_ids.
  - apply goTo_ids.
  - by case_match.
  - by rewrite (proj1 (onSubmit_elements p)).
Qed.

Lemma run_ids p acts :
  el_id <$> elements (doc (run p acts)) = el_id <$> elements (doc p).
Proof.
  revert p. induction acts as [|a acts IH]; intros p; [done|].
  simpl. by rewrite IH, step_ids.
Qed.

Lemma find_by_id_ids id (l1 l2 : list Element) :
  el_id <$> l1 = el_id <$> l2 ->
  fst <$> list_find (fun e => el_id e = id) l1
  = fst <$> list_find (fun e => el_id e = id) l2.
Proof.
  revert l2. induction l1 as [|e1 l1 IH]; intros [|e2 l2]; simpl; try done.
  intros [= He Hl]. rewrite He. case_decide; [done|].
  specialize (IH l2 Hl).
  destruct (list_find _ l1) as [[? ?]|], (list_find _ l2) as [[? ?]|];
    simplify_eq/=; done.
Qed.

Lemma getElementById_ids id d1 d2 :
  el_id <$> elements d1 = el_id <$> elements d2 ->
  getElementById id d1 = getElementById id d2.
Proof.
  intros H. unfold getElementById. destruct id; [done|].
  by apply find_by_id_ids.
Qed.

(** X15: on the shipped page, after any sequence of actions, each of the
    thirteen section ids is still the id of an element, and [goTo] of the
    "#"-prefixed id focuses that element without touching the location:
    the links of the header, the menu and the cards never reach the
    fragment fallback. *)
Theorem section_links_resolve w f acts :
  let p := run (mount w (site_document f)) acts in
  Forall (fun id =>
            exists el,
              (el_id <$> site_elements !! el) = Some id /\
              getElementById id (doc p) = Some el /\
              activeElement (doc (goTo (lit "#" ++ id) p)) = Some el /\
              win (goTo (lit "#" ++ id) p) = win p)
         section_ids.
Proof.
  intros p.
  assert (forall id, getElementById id (doc p)
                     = getElementById id (site_document f)) as Hg.
  { intros id. apply getElementById_ids. unfold p. rewrite run_ids.
    by destruct (mount_frame w (site_document f)) as (_ & _ & _ & _ & _ & _ & -> & _). }
  assert (forall id el,
            getElementById id (site_document f) = Some el ->
            (el_id <$> site_elements !! el) = Some id ->
            exists el,
              (el_id <$> site_elements !! el) = Some id /\
              getElementById id (doc p) = Some el /\
              activeElement (doc (goTo (lit "#" ++ id) p)) = Some el /\
              win (goTo (lit "#" ++ id) p) = win p) as Hone.
  { intros id el Hel Hid. exists el. rewrite Hg. split; [done|]. split; [done|].
    destruct (goTo_found (lit "#" ++ id) p el) as (? & _ & ?); [|done].
    by rewrite strip_hash_prefixed, Hg. }
  unfold section_ids.
  repeat (apply Forall_cons; split; [eapply Hone; reflexivity|]).
  apply Forall_nil_2.
Qed.

Lemma goTo_doc_found id p el :
  getElementById (strip_hash id) (doc p) = Some el ->
  doc (goTo id p) =
    with_activeElement (Some el)
      (with_elements
         (alter (fun e => {| el_id := el_id e; el_tabindex := Some (lit "-1") |})
                el (elements (doc p)))
         (doc p)) /\
  win (goTo id p) = win p.
Proof.
  intros H. unfold goTo. rewrite H.
  apply getElementById_Some in H as (e & He & _).
  unfold focus. simpl.
  by rewrite list_lookup_alter, decide_True, He by done.
Qed.

Lemma goTo_not_found id p :
  getElementById (strip_hash id) (doc p) = None ->
  goTo id p = set_location_hash id p.
Proof. intros H. unfold goTo. by rewrite H. Qed.

(** X16: [goTo] is idempotent on the page's state: a second call with the
    same id leaves the document and the window as the first did (it only
    asks for the scroll again). *)
Theorem goTo_idempotent id p :
  doc (goTo id (goTo id p)) = doc (goTo id p) /\
  win (goTo id (goTo id p)) = win (goTo id p) /\
  next (goTo id (goTo id p)) = next (goTo id p) /\
  shown (goTo id (goTo id p)) = shown (goTo id p).
Proof.
  destruct (goTo_frame id (goTo id p)) as ((Hs & _) & Hn).
  split; [|split; [|done]];
    destruct (getElementById (strip_hash id) (doc p)) as [el|] eqn:Hel.
  - assert (getElementById (strip_hash id) (doc (goTo id p)) = Some el) as Hel'.
    { rewrite <- Hel. apply getElementById_ids, goTo_ids. }
    destruct (goTo_doc_found id (goTo id p) el Hel') as [-> _].
    destruct (goTo_doc_found id p el Hel) as [-> _]. simpl.
    unfold with_activeElement, with_elements. simpl. f_equal.
    rewrite list_alter_alter_eq. by apply list_alter_ext.
  - rewrite (goTo_not_found id p Hel).
    by rewrite (goTo_not_found id (set_location_hash id p) Hel).
  - assert (getElementById (strip_hash id) (doc (goTo id p)) = Some el) as Hel'.
    { rewrite <- Hel. apply getElementById_ids, goTo_ids. }
    by destruct (goTo_doc_found id (goTo id p) el Hel') as [_ ->].
  - rewrite (goTo_not_found id p Hel).
    by rewrite (goTo_not_found id (set_location_hash id p) Hel).
Qed.

Lemma alter_tabindex_keeps i el (l : list Element) :
  (el_tabindex <$> l !! el) = Some (Some (lit "-1")) ->
  (el_tabindex <$>
     alter (fun e => {| el_id := el_id e; el_tabindex := Some (lit "-1") |}) i l
     !! el) = Some (Some (lit "-1")).
Proof.
  intros H. rewrite list_lookup_alter. case_decide; [|done].
  subst. by destruct (l !! el).
Qed.

Lemma goTo_tabindex_keeps id p el :
  (el_tabindex <$> elements (doc p) !! el) = Some (Some (lit "-1")) ->
  (el_tabindex <$> elements (doc (goTo id p)) !! el) = Some (Some (lit "-1")).
Proof.
  intros H. unfold goTo, focus. repeat case_match; simpl; try done;
    by apply alter_tabindex_keeps.
Qed.

Lemma step_tabindex_keeps p a el :
  (el_tabindex <$> elements (doc p) !! el) = Some (Some (lit "-1")) ->
  (el_tabindex <$> elements (doc (step p a)) !! el) = Some (Some (lit "-1")).
Proof.
  intros H. destruct a; cbv beta iota delta [step];
    unfold click_theme_button, toggleMenu, click_menu_link, click_card,
      click_divider, mql_change, submit;
    rewrite (proj1 (commit_frame _)); try done.
  - unfold NavLink_onClick. case_match; [|done]. simpl.
    by apply goTo_tabindex_keeps.
  - by apply goTo_tabindex_keeps.
  - by apply goTo_tabindex_keeps.
  - by apply goTo_tabindex_keeps.
  - by case_match.
  - by rewrite (proj1 (onSubmit_elements p)).
Qed.

(** X17: the tabindex that [goTo] gives its target is not taken back: after
    any further actions the element still carries [tabindex="-1"]. *)
Theorem goTo_tabindex_stays id p el acts :
  getElementById (strip_hash id) (doc p) = Some el ->
  (el_tabindex <$> elements (doc (run (goTo id p) acts)) !! el)
  = Some (Some (lit "-1")).
Proof.
  intros H. destruct (goTo_found id p el H) as (_ & Ht & _).
  revert Ht. generalize (goTo id p). clear H.
  induction acts as [|a acts IH]; intros q Hq; [done|].
  simpl. by apply IH, step_tabindex_keeps.
Qed.

Lemma goTo_tabindex_stays_witness :
  (el_tabindex <$> elements (doc jane_page) !! 1%nat) = Some None /\
  (el_tabindex <$>
     elements (doc (run (goTo (lit "#home") jane_page)
                        [ClickThemeButton; CallGoTo (lit "faq"); SubmitForm]))
     !! 1%nat) = Some (Some (lit "-1")).
Proof.
  split; [reflexivity|].
  by apply (goTo_tabindex_stays (lit "#home") jane_page 1%nat).
Defined.

(** ** Unmounting *)

Lemma run_addEventListener p acts :
  mql_addEventListener (win (run p acts)) = mql_addEventListener (win p).
Proof.
  revert p. induction acts as [|a acts IH]; intros p; [done|].
  simpl. rewrite IH. by destruct (step_win p a) as (-> & _).
Qed.

(** X18: unmounting after any sequence of actions releases the scroll lock
    even if the menu was open, removes the media listener where one could
    be registered, and leaves the storage alone, so that a later load shows
    the theme the page had. *)
Theorem unmount_releases w d acts :
  let p := run (mount w d) acts in
  let q := unmount p in
  body_overflow (doc q) = lit "" /\
  root_scrollBehavior (doc q) = lit "auto" /\
  (mql_addEventListener w = true -> mql_listening (win q) = false) /\
  localStorage (win q) = localStorage (win p) /\
  (forall d', theme (shown (mount (win q) d')) = theme (shown p)).
Proof.
  intros p q.
  assert (settled p) as Hp by apply run_settled, mount_settled.
  assert (mql_addEventListener (win p) = mql_addEventListener w) as Ha.
  { unfold p. rewrite run_addEventListener. by apply mount_frame. }
  assert (localStorage (win q) = localStorage (win p)) as Hl.
  { unfold q, unmount, cleanup_reducedMotion. by case_match. }
  split; [done|]. split; [done|]. split; [|split; [done|]].
  - intros Hw. unfold q, unmount, cleanup_reducedMotion.
    by rewrite Ha, Hw.
  - intros d'. rewrite mount_theme. unfold initTheme. rewrite Hl.
    destruct Hp as (_ & _ & -> & _). by destruct (theme (shown p)).
Qed.

(** ** Class names *)

Lemma class_strings_nonempty parts :
  Forall (fun s => s <> []) (map part_string (List.filter Boolean parts)).
Proof.
  induction parts as [|[[|c s]| | |] parts IH]; simpl; try done.
  by constructor.
Qed.

Lemma join_nil_iff sep l :
  Forall (fun s => s <> []) l -> join sep l = [] <-> l = [].
Proof.
  intros H. split; [|by intros ->].
  destruct H as [|x l Hx _]; [done|]. simpl.
  destruct x; [done|]. by destruct l.
Qed.

Lemma join_app sep l1 l2 :
  l1 <> [] -> l2 <> [] ->
  join sep (l1 ++ l2) = join sep l1 ++ sep ++ join sep l2.
Proof.
  intros H1 H2. induction l1 as [|x l1 IH]; [done|].
  destruct l1 as [|y l1].
  - simpl. by destruct l2.
  - change (join sep ((x :: y :: l1) ++ l2))
      with (x ++ sep ++ join sep ((y :: l1) ++ l2)).
    change (join sep (x :: y :: l1)) with (x ++ sep ++ join sep (y :: l1)).
    rewrite IH by done. by rewrite <- !app_assoc.
Qed.

(** X19: class lists nest: [cx] of two lists put end to end is [cx] of their
    two [cx] results, so a result of [cx] can be passed on to [cx] (as
    [inputBase] is) without changing the outcome. *)
Theorem cx_app xs ys : cx (xs ++ ys) = cx [CStr (cx xs); CStr (cx ys)].
Proof.
  unfold cx. rewrite List.filter_app, map_app.
  pose proof (class_strings_nonempty xs) as Hx.
  pose proof (class_strings_nonempty ys) as Hy.
  set (A := map part_string (List.filter Boolean xs)) in *.
  set (B := map part_string (List.filter Boolean ys)) in *.
  pose proof (join_nil_iff (lit " ") A Hx) as HA.
  pose proof (join_nil_iff (lit " ") B Hy) as HB.
  destruct A as [|a A].
  - change ([] ++ B) with B. by destruct (join (lit " ") B).
  - destruct (join (lit " ") (a :: A)) as [|c s] eqn:EA;
      [by specialize (proj1 HA eq_refl)|].
    destruct B as [|b B].
    + by rewrite app_nil_r, EA.
    + destruct (join (lit " ") (b :: B)) as [|c' s'] eqn:EB;
        [by specialize (proj1 HB eq_refl)|].
      rewrite join_app by done. by rewrite EA, EB.
Qed.

(** X20: [cx] gives the empty string exactly when every part is falsy (false,
    null, undefined or the empty string), and falsy parts never show. *)
Theorem cx_empty_iff parts :
  (cx parts = [] <-> Forall (fun part => Boolean part = false) parts) /\
  cx (List.filter Boolean parts) = cx parts.
Proof.
  split.
  - unfold cx. rewrite join_nil_iff by apply class_strings_nonempty.
    induction parts as [|part parts IH]; [done|]. simpl.
    destruct (Boolean part) eqn:E; simpl.
    + split; [done|]. intros H%Forall_cons. destruct H. congruence.
    + rewrite IH. split; [intros; by constructor|].
      intros H%Forall_cons. by destruct H.
  - unfold cx. f_equal. f_equal.
    induction parts as [|part parts IH]; [done|]. simpl.
    destruct (Boolean part) eqn:E; simpl; by rewrite ?E, IH.
Qed.

Example cx_examples :
  cx [CStr (lit "p-2"); CFalse; CStr (lit ""); CNull; CStr (lit "border");
      CUndefined] = lit "p-2 border" /\
  cx [CFalse; CNull] = lit "" /\
  cx [CStr (cx [CStr (lit "w-full"); CFalse; CStr (lit "border")]);
      CStr (lit "h-28")] = lit "w-full border h-28".
Proof. by vm_compute. Qed.

(** ** [replace] *)

(** X21: [replace] with a pattern that does not occur returns the string
    unchanged; so a divider label without " Ceremonies" is its own key. *)
Theorem replace_absent pat r s :
  includes pat s = false -> replace pat r s = s.
Proof.
  intros H. induction s as [|c s IH].
  - simpl in *. by apply orb_false_iff in H as [-> _].
  - cbn [includes] in H. apply orb_false_iff in H as [H1 H2].
    cbn [replace]. rewrite H1. by rewrite IH.
Qed.

Lemma replace_absent_witness :
  includes (lit " Ceremonies") (lit "Vow Renewals") = false /\
  divider_key (lit "Vow Renewals") = lit "Vow Renewals".
Proof.
  split; [reflexivity|].
  by apply (replace_absent (lit " Ceremonies") (lit "") (lit "Vow Renewals")).
Defined.

(** ** Navigations *)

